(** * A radial basis function layer (torch_rbf.py), embedded and verified

    The development follows [src/Torch RBF/torch_rbf.py]:
    - [Tensors]     : the part of the tensor library the layer calls
                      (shapes, views, broadcasting, elementwise maps);
    - [Basis]       : the eleven radial basis functions and [basis_func_dict];
    - [Layer]       : the class [RBF] with [__init__], [reset_parameters]
                      and [forward], as computations over the object [self];
    - the remaining sections state and prove the properties of the layer.

    Tensor elements are IEEE floats in the program; here they are the real
    numbers of the Standard Library, the exact, rounding-free reading of the
    arithmetic.  Orders and bounds are stated in the form that rounding,
    overflow and underflow leave intact (not rising, never negative) rather
    than in the strict form that holds of real numbers only; where a
    property turns on overflow, [Float64] gives the binary64 arithmetic of a
    single element. *)

From Stdlib Require Import Reals Lra Lia List ZArith Bool.
From Stdlib Require PrimFloat.
From stdpp Require Import gmap strings.
Import ListNotations.

(** ** Exceptions and fallible results *)

(** The exceptions the program can raise, under the names the specification
    gives them. *)
Inductive error : Set :=
| InvalidArgument       (* RuntimeError: torch.Tensor(..) with a negative dimension *)
| ShapeMismatch         (* RuntimeError: expand / broadcasting of incompatible sizes *)
| IndexError            (* IndexError: size(d), unsqueeze(d) with d out of range *)
| UnknownBasisFunction. (* KeyError: subscript of the catalog with a missing key *)

Inductive result (A : Type) : Type :=
| Ok (a : A)
| Err (e : error).
Arguments Ok {A} a.
Arguments Err {A} e.

Definition rbind {A B : Type} (c : result A) (k : A -> result B) : result B :=
  match c with
  | Ok a => k a
  | Err e => Err e
  end.

Notation "'let?' x ':=' c 'in' k" := (rbind c (fun x => k))
  (at level 10, x name, c at level 100, k at level 200).

(** ** Tensors *)

Module Tensors.

(** Number of elements of a tensor of the given sizes. *)
Definition numel_of (sz : list nat) : nat := fold_right Nat.mul 1%nat sz.

(** A dense tensor: its sizes and its elements in row-major order. *)
Record Tensor : Type := mkTensor { sizes : list nat; data : list R }.

Definition tensor_wf (t : Tensor) : Prop :=
  length (data t) = numel_of (sizes t).

(** Row-major offset of a multi-index. *)
Fixpoint flat_index (sz idx : list nat) : nat :=
  match sz, idx with
  | _ :: sz', i :: idx' => (i * numel_of sz' + flat_index sz' idx')%nat
  | _, _ => 0%nat
  end.

(** [idx] addresses an element of a tensor of sizes [sz]. *)
Fixpoint in_bounds (sz idx : list nat) : Prop :=
  match sz, idx with
  | [], [] => True
  | s :: sz', i :: idx' => (i < s)%nat /\ in_bounds sz' idx'
  | _, _ => False
  end.

(** All multi-indices of a tensor of sizes [sz], in row-major order. *)
Fixpoint indices (sz : list nat) : list (list nat) :=
  match sz with
  | [] => [[]]
  | s :: sz' => flat_map (fun i => map (cons i) (indices sz')) (seq 0 s)
  end.

(** Element access, [t[i0, i1, ...]]. *)
Definition tget (t : Tensor) (idx : list nat) : R :=
  nth (flat_index (sizes t) idx) (data t) 0%R.

(** The tensor of sizes [sz] whose element at [idx] is [f idx]. *)
Definition tabulate (sz : list nat) (f : list nat -> R) : Tensor :=
  mkTensor sz (map f (indices sz)).

(** A zero-dimensional tensor holding one number. *)
Definition scalar_tensor (v : R) : Tensor := mkTensor [] [v].

(** [torch.full(sz, v)]. *)
Definition full (sz : list nat) (v : R) : Tensor :=
  mkTensor sz (repeat v (numel_of sz)).

(** [t.size(d)] for a non-negative [d]. *)
Definition size (t : Tensor) (d : nat) : result nat :=
  match nth_error (sizes t) d with
  | Some n => Ok n
  | None => Err IndexError
  end.

(** [t.unsqueeze(d)] for a non-negative [d]: a dimension of size one is
    inserted at position [d]; the elements are shared. *)
Definition unsqueeze (t : Tensor) (d : nat) : result Tensor :=
  if (d <=? length (sizes t))%nat
  then Ok (mkTensor (firstn d (sizes t) ++ 1%nat :: skipn d (sizes t)) (data t))
  else Err IndexError.

(** One dimension of size [s] can be expanded to size [t]. *)
Definition dim_expands (s t : nat) : bool := (s =? t)%nat || (s =? 1)%nat.

(** [expand] accepts the sizes [tgt] for a tensor of sizes [src]: [tgt] has at
    least as many dimensions, and, aligned at the last dimension, every
    existing dimension is kept or has size one. *)
Definition expandable (src tgt : list nat) : bool :=
  (length src <=? length tgt)%nat &&
  forallb (fun p => dim_expands (fst p) (snd p))
          (combine src (skipn (length tgt - length src) tgt)).

(** The index of the source element that a broadcast reads at [idx]: leading
    new dimensions are dropped and dimensions of size one are read at 0. *)
Definition bcast_index (src idx : list nat) : list nat :=
  map (fun p => if (fst p =? 1)%nat then 0%nat else snd p)
      (combine src (skipn (length idx - length src) idx)).

(** [t.expand(size)], all sizes non-negative. *)
Definition expand (t : Tensor) (size : list nat) : result Tensor :=
  if expandable (sizes t) size
  then Ok (tabulate size (fun idx => tget t (bcast_index (sizes t) idx)))
  else Err ShapeMismatch.

(** Broadcast of two size lists, last dimension first. *)
Fixpoint broadcast_rev (a b : list nat) : option (list nat) :=
  match a, b with
  | [], _ => Some b
  | _, [] => Some a
  | x :: a', y :: b' =>
      if (x =? y)%nat then option_map (cons x) (broadcast_rev a' b')
      else if (x =? 1)%nat then option_map (cons y) (broadcast_rev a' b')
      else if (y =? 1)%nat then option_map (cons x) (broadcast_rev a' b')
      else None
  end.

Definition broadcast_shapes (a b : list nat) : option (list nat) :=
  option_map (@rev nat) (broadcast_rev (rev a) (rev b)).

(** A binary elementwise operator with broadcasting, [a op b]. *)
Definition binop (f : R -> R -> R) (a b : Tensor) : result Tensor :=
  match broadcast_shapes (sizes a) (sizes b) with
  | Some sz =>
      Ok (tabulate sz (fun idx =>
            f (tget a (bcast_index (sizes a) idx))
              (tget b (bcast_index (sizes b) idx))))
  | None => Err ShapeMismatch
  end.

Definition add : Tensor -> Tensor -> result Tensor := binop Rplus.
Definition sub : Tensor -> Tensor -> result Tensor := binop Rminus.
Definition mul : Tensor -> Tensor -> result Tensor := binop Rmult.
Definition div : Tensor -> Tensor -> result Tensor := binop Rdiv.

(** A unary elementwise operator. *)
Definition tmap (f : R -> R) (t : Tensor) : Tensor :=
  mkTensor (sizes t) (map f (data t)).

(** [torch.ones_like(t)]. *)
Definition ones_like (t : Tensor) : Tensor := tmap (fun _ => 1%R) t.

(** [t.pow(n)] for a natural exponent. *)
Definition pow (t : Tensor) (n : nat) : Tensor := tmap (fun v => (v ^ n)%R) t.

(** [t.pow(0.5)]: the square root.  (On a negative number the library
    answers nan and [sqrt] answers 0; the layer and the basis functions take
    roots of sums of squares and of [1 + alpha^2] only.) *)
Definition pow_half (t : Tensor) : Tensor := tmap sqrt t.

(** [k * t] and [t / k] for a number [k]. *)
Definition smul (k : R) (t : Tensor) : Tensor := tmap (Rmult k) t.
Definition sdiv (t : Tensor) (k : R) : Tensor := tmap (fun v => (v / k)%R) t.

(** [-t], [torch.exp(t)], [torch.log(t)].  (On a non-positive number the
    library answers nan or -inf and [ln] answers 0; [spline] takes the
    logarithm of [alpha + 1] for a distance [alpha >= 0].) *)
Definition neg (t : Tensor) : Tensor := tmap Ropp t.
Definition t_exp (t : Tensor) : Tensor := tmap exp t.
Definition t_log (t : Tensor) : Tensor := tmap ln t.

Definition Rsum (l : list R) : R := fold_right Rplus 0%R l.

(** [t.sum(-1)]: the sum over the last dimension, which is removed. *)
Definition sum_last (t : Tensor) : Tensor :=
  match sizes t with
  | [] => t
  | _ :: _ =>
      tabulate (removelast (sizes t))
        (fun idx => Rsum (map (fun k => tget t (idx ++ [k]))
                              (seq 0 (List.last (sizes t) 0%nat))))
  end.

(** [torch.Tensor(d0, d1, ...)]: a tensor of the given sizes holding whatever
    the allocated memory holds ([garbage]); a negative size is refused.  The
    limits of the allocation are not modelled: every non-negative size is
    granted, where the library refuses sizes beyond 64 bits and storage it
    cannot allocate. *)
Definition Tensor_new (garbage : nat -> R) (dims : list Z) : result Tensor :=
  if forallb (fun d => (0 <=? d)%Z) dims
  then Ok (mkTensor (map Z.to_nat dims)
                    (map garbage (seq 0 (numel_of (map Z.to_nat dims)))))
  else Err InvalidArgument.

(** [nn.init.normal_(t, mean, std)]: every element is replaced by a draw from
    the normal distribution; [randn k] is the k-th standard normal draw. *)
Definition normal_ (randn : nat -> R) (t : Tensor) (mean std : R) : Tensor :=
  mkTensor (sizes t)
           (map (fun k => (mean + std * randn k)%R) (seq 0 (length (data t)))).

(** [nn.init.constant_(t, v)]. *)
Definition constant_ (t : Tensor) (v : R) : Tensor := tmap (fun _ => v) t.

End Tensors.
Import Tensors.

(** ** The radial basis functions *)

Module Basis.

Local Open Scope R_scope.

(** A basis function is a callable from tensors to tensors; the call can
    raise. *)
Definition basis_fn : Type := Tensor -> result Tensor.

(** Each definition is the body of the Python function of the same name, one
    tensor operation per step, in Python's order of evaluation and with
    Python's operator precedence. *)

Definition gaussian (alpha : Tensor) : result Tensor :=
  Ok (t_exp (smul (-1) (pow alpha 2))).

Definition linear (alpha : Tensor) : result Tensor :=
  Ok alpha.

Definition quadratic (alpha : Tensor) : result Tensor :=
  Ok (pow alpha 2).

Definition inverse_quadratic (alpha : Tensor) : result Tensor :=
  let? den := add (ones_like alpha) (pow alpha 2) in
  div (ones_like alpha) den.

Definition multiquadric (alpha : Tensor) : result Tensor :=
  let? s := add (ones_like alpha) (pow alpha 2) in
  Ok (pow_half s).

Definition inverse_multiquadric (alpha : Tensor) : result Tensor :=
  let? s := add (ones_like alpha) (pow alpha 2) in
  div (ones_like alpha) (pow_half s).

Definition spline (alpha : Tensor) : result Tensor :=
  let? a1 := add alpha (ones_like alpha) in
  mul (pow alpha 2) (t_log a1).

Definition poisson_one (alpha : Tensor) : result Tensor :=
  let? d := sub alpha (ones_like alpha) in
  mul d (t_exp (neg alpha)).

(** [(alpha - 2*ones) / 2*ones]: [/] and [*] associate to the left, so the
    quotient by 2 is taken first and then multiplied by the tensor of ones. *)
Definition poisson_two (alpha : Tensor) : result Tensor :=
  let? d := sub alpha (smul 2 (ones_like alpha)) in
  let? q := mul (sdiv d 2) (ones_like alpha) in
  let? p := mul q alpha in
  mul p (t_exp (neg alpha)).

(** [3**0.5] is the square root of 3, and [-3**0.5*alpha] is
    [(-(3**0.5)) * alpha]. *)
Definition matern32 (alpha : Tensor) : result Tensor :=
  let? s := add (ones_like alpha) (smul (sqrt 3) alpha) in
  mul s (t_exp (smul (- sqrt 3) alpha)).

Definition matern52 (alpha : Tensor) : result Tensor :=
  let? s1 := add (ones_like alpha) (smul (sqrt 5) alpha) in
  let? s := add s1 (smul (5 / 3) (pow alpha 2)) in
  mul s (t_exp (smul (- sqrt 5) alpha)).

(** The dictionary literal of [basis_func_dict()]. *)
Definition basis_func_dict : gmap string basis_fn :=
  list_to_map
    [ ("gaussian"%string, gaussian);
      ("linear"%string, linear);
      ("quadratic"%string, quadratic);
      ("inverse quadratic"%string, inverse_quadratic);
      ("multiquadric"%string, multiquadric);
      ("inverse multiquadric"%string, inverse_multiquadric);
      ("spline"%string, spline);
      ("poisson one"%string, poisson_one);
      ("poisson two"%string, poisson_two);
      ("matern32"%string, matern32);
      ("matern52"%string, matern52) ].

(** Subscript of a dictionary, [d[key]]: a missing key raises. *)
Definition getitem {A : Type} (d : gmap string A) (key : string) : result A :=
  match d !! key with
  | Some v => Ok v
  | None => Err UnknownBasisFunction
  end.

(** The catalog lookup, [basis_func_dict()[name]]. *)
Definition get (name : string) : result basis_fn :=
  getitem basis_func_dict name.

(** The eleven keys of the catalog. *)
Definition catalog_names : list string :=
  [ "gaussian"; "linear"; "quadratic"; "inverse quadratic"; "multiquadric";
    "inverse multiquadric"; "spline"; "poisson one"; "poisson two";
    "matern32"; "matern52" ]%string.

(** The closed form the specification gives for [poisson two]. *)
Definition poisson_two_spec (alpha : R) : R :=
  ((alpha - 2) / 2) * alpha * exp (- alpha).

End Basis.
Import Basis.

(** ** The layer *)

Module Layer.

(** The attributes of an [RBF] object.  A constructed layer has non-negative
    dimensions (the constructor raises otherwise), so they are kept as
    natural numbers. *)
Record RBF : Type := mkRBF {
  in_features : nat;
  out_features : nat;
  centers : Tensor;
  log_sigmas : Tensor;
  basis_func : basis_fn
}.

(** A method of the class: a computation that reads and writes [self] and
    returns a value or raises.  The object keeps what was written before an
    exception. *)
Definition Method (A : Type) : Type := RBF -> RBF * result A.

Definition m_ret {A : Type} (a : A) : Method A := fun self => (self, Ok a).

Definition m_bind {A B : Type} (c : Method A) (k : A -> Method B) : Method B :=
  fun self =>
    match c self with
    | (self', Ok a) => k a self'
    | (self', Err e) => (self', Err e)
    end.

(** Read of an attribute, [self.f]. *)
Definition read {A : Type} (f : RBF -> A) : Method A :=
  fun self => (self, Ok (f self)).

(** A call that does not involve [self]. *)
Definition lift {A : Type} (r : result A) : Method A :=
  fun self => (self, r).

(** In-place update of the object. *)
Definition modify (g : RBF -> RBF) : Method unit :=
  fun self => (g self, Ok tt).

Notation "'let!' x ':=' c 'in' k" := (m_bind c (fun x => k))
  (at level 10, x name, c at level 100, k at level 200).

Definition set_centers (c : Tensor) (self : RBF) : RBF :=
  mkRBF (in_features self) (out_features self) c (log_sigmas self)
        (basis_func self).

Definition set_log_sigmas (s : Tensor) (self : RBF) : RBF :=
  mkRBF (in_features self) (out_features self) (centers self) s
        (basis_func self).

(** What the constructor takes from its surroundings: the contents of freshly
    allocated memory and the draws of the random number generator. *)
Record Env : Type := mkEnv { garbage : nat -> R; randn : nat -> R }.

(** [RBF.reset_parameters]. *)
Definition reset_parameters (env : Env) : Method unit :=
  let! c := read centers in
  let! _ := modify (set_centers (normal_ (randn env) c 0 1)) in
  let! s := read log_sigmas in
  modify (set_log_sigmas (constant_ s 0)).

(** [RBF.__init__]: the two parameters are allocated, then initialised by
    [reset_parameters].  [nn.Parameter] registers a tensor for training and
    leaves its value alone. *)
Definition RBF_init (env : Env) (in_features out_features : Z)
    (basis_func : basis_fn) : result RBF :=
  let? c := Tensor_new (garbage env) [out_features; in_features] in
  let? s := Tensor_new (garbage env) [out_features] in
  let self := mkRBF (Z.to_nat in_features) (Z.to_nat out_features) c s
                    basis_func in
  match reset_parameters env self with
  | (self', Ok _) => Ok self'
  | (_, Err e) => Err e
  end.

(** [RBF.forward]. *)
Definition forward (input : Tensor) : Method Tensor :=
  let! n := lift (size input 0) in
  let! out_f := read out_features in
  let! in_f := read in_features in
  let size := [n; out_f; in_f] in
  let! x := lift (let? u := unsqueeze input 1 in expand u size) in
  let! cs := read centers in
  let! c := lift (let? u := unsqueeze cs 0 in expand u size) in
  let! ls := read log_sigmas in
  let! distances := lift (let? diff := sub x c in
                          let? sigmas := unsqueeze (t_exp ls) 0 in
                          div (pow_half (sum_last (pow diff 2))) sigmas) in
  let! bf := read basis_func in
  lift (bf distances).

(** The invariant of the data model: the parameters have the shapes the
    dimensions announce. *)
Definition layer_wf (l : RBF) : Prop :=
  tensor_wf (centers l) /\ sizes (centers l) = [out_features l; in_features l] /\
  tensor_wf (log_sigmas l) /\ sizes (log_sigmas l) = [out_features l].

(** A basis function that is the elementwise application of [f]. *)
Definition elementwise (bf : basis_fn) (f : R -> R) : Prop :=
  forall t, tensor_wf t -> bf t = Ok (tmap f t).

(** The batch whose rows repeat, [d] times, the first entry of the rows of
    [input]. *)
Definition repeat_cols (d : nat) (input : Tensor) : Tensor :=
  tabulate [nth 0 (sizes input) 0%nat; d]
           (fun idx => tget input [nth 0 idx 0%nat; 0%nat]).

(** Squared Euclidean distance of row [i] of [x] to row [j] of [c], over [d]
    coordinates. *)
Definition sqdist (d : nat) (x c : Tensor) (i j : nat) : R :=
  Rsum (map (fun k => ((tget x [i; k] - tget c [j; k]) ^ 2)%R) (seq 0 d)).

End Layer.
Import Layer.

(** ** Concrete layers and batches *)

Module Scenario.

Local Open Scope R_scope.

(** The layer of the specification's scenarios: two inputs, one center at the
    origin, bandwidth one. *)
Definition scenario_layer (bf : basis_fn) : RBF :=
  mkRBF 2 1 (mkTensor [1%nat; 2%nat] [0; 0]) (mkTensor [1%nat] [0]) bf.

(** One vector, (3, 4). *)
Definition batch_34 : Tensor := mkTensor [1%nat; 2%nat] [3; 4].

(** Two vectors, (0, 0) and (3, 4). *)
Definition batch_00_34 : Tensor := mkTensor [2%nat; 2%nat] [0; 0; 3; 4].

(** One vector of length one, (3). *)
Definition batch_narrow : Tensor := mkTensor [1%nat; 1%nat] [3].

(** One vector of length three, (1, 2, 3). *)
Definition batch_wide : Tensor := mkTensor [1%nat; 3%nat] [1; 2; 3].

(** An environment whose memory and random draws are all zero. *)
Definition quiet_env : Env := mkEnv (fun _ => 0) (fun _ => 0).

End Scenario.
Import Scenario.

(** ** Notions used to state further properties of the layer *)

Module Notions.

Local Open Scope R_scope.

(** [r] is a returned, well-formed tensor of sizes [sz] all of whose elements
    satisfy [P]. *)
Definition returns_all (P : R -> Prop) (sz : list nat) (r : result Tensor) : Prop :=
  exists out, r = Ok out /\ tensor_wf out /\ sizes out = sz /\ Forall P (data out).

(** On the numbers [a] and [b], given as tensors without dimensions, [bf]
    returns numbers, the second one not greater (not smaller) than the
    first. *)
Definition not_rising (bf : basis_fn) (a b : R) : Prop :=
  exists va vb, bf (scalar_tensor a) = Ok (scalar_tensor va) /\
                bf (scalar_tensor b) = Ok (scalar_tensor vb) /\ vb <= va.

Definition not_falling (bf : basis_fn) (a b : R) : Prop :=
  exists va vb, bf (scalar_tensor a) = Ok (scalar_tensor va) /\
                bf (scalar_tensor b) = Ok (scalar_tensor vb) /\ va <= vb.

(** Euclidean distance of row [i] of [x] to row [j] of [c]. *)
Definition distance (d : nat) (x c : Tensor) (i j : nat) : R :=
  sqrt (sqdist d x c i j).

(** A batch without vectors, of vector length two. *)
Definition batch_empty : Tensor := mkTensor [0%nat; 2%nat] [].

End Notions.
Import Notions.

(** ** The arithmetic of the program on one element *)

Module Float64.

Import PrimFloat.

(** The elements of a tensor of dtype float64 are binary64 floats, the
    floats of the kernel.  [alpha.pow(2)] multiplies an element by itself,
    with the rounding and the overflow of IEEE arithmetic. *)
Definition pow2 (v : float) : float := PrimFloat.mul v v.

(** [linear] and [quadratic] on a float64 tensor without dimensions, given by
    its element. *)
Definition linear (alpha : float) : float := alpha.

Definition quadratic (alpha : float) : float := pow2 alpha.

(** Three scaled distances: 0, 2^600 and 2^601. *)
Definition zero : float := 0%float.
Definition two_600 : float := 0x1p+600%float.
Definition two_601 : float := 0x1p+601%float.

End Float64.

(** ** The logger set-up (Logging.py) *)

Module Logging.

(** The levels [get_logger] deals with; [NOTSET] is the level of a logger
    nobody has configured. *)
Inductive Level : Set := NOTSET | DEBUG | INFO | WARNING.

(** A handler with the formatter attached to it, if any. *)
Inductive Handler : Set :=
| FileHandler (filename mode : string) (formatter : option string)
| StreamHandler (formatter : option string).

Definition setFormatter (fmt : string) (h : Handler) : Handler :=
  match h with
  | FileHandler f m _ => FileHandler f m (Some fmt)
  | StreamHandler _ => StreamHandler (Some fmt)
  end.

Record Logger : Set := mkLogger { level : Level; handlers : list Handler }.

Inductive exn : Set :=
| KeyError   (* subscript of a dictionary with a missing key *)
| OSError.   (* a file-system call refused by the operating system *)

Inductive outcome (A : Type) : Type :=
| Returned (a : A)
| Raised (e : exn).
Arguments Returned {A} a.
Arguments Raised {A} e.

(** The file-system calls of the function, as the operating system answers
    them: [None] is a raised [OSError]. *)
Record OS (FS : Type) : Type := mkOS {
  path_exists : string -> FS -> bool;
  makedirs : string -> FS -> option FS;
  open_file : string -> string -> FS -> option FS
}.
Arguments path_exists {FS} _ _ _.
Arguments makedirs {FS} _ _ _.
Arguments open_file {FS} _ _ _ _.

(** The state the function acts on: the file system and the registry of
    loggers that [logging.getLogger] keeps, by name. *)
Record World (FS : Type) : Type := mkWorld {
  fs : FS;
  loggers : gmap string Logger
}.
Arguments mkWorld {FS} _ _.
Arguments fs {FS} _.
Arguments loggers {FS} _.

(** A file system that never refuses: the list of the paths that exist. *)
Definition ideal_os : OS (list string) :=
  mkOS (list string)
       (fun p paths => existsb (String.eqb p) paths)
       (fun p paths => Some (p :: paths))
       (fun p _ paths => Some (p :: paths)).

(** An operating system that refuses to open any file. *)
Definition readonly_os : OS (list string) :=
  mkOS (list string)
       (fun p paths => existsb (String.eqb p) paths)
       (fun p paths => Some (p :: paths))
       (fun _ _ _ => None).

Section WithOS.

Context {FS : Type} (os : OS FS).

(** A procedure: it changes the world and returns or raises; what was done
    before an exception stays done. *)
Definition Proc (A : Type) : Type := World FS -> World FS * outcome A.

Definition p_ret {A : Type} (a : A) : Proc A := fun w => (w, Returned a).

Definition p_bind {A B : Type} (c : Proc A) (k : A -> Proc B) : Proc B :=
  fun w =>
    match c w with
    | (w', Returned a) => k a w'
    | (w', Raised e) => (w', Raised e)
    end.

Notation "'let*' x ':=' c 'in' k" := (p_bind c (fun x => k))
  (at level 10, x name, c at level 100, k at level 200).

(** [os.path.exists(p)]. *)
Definition os_path_exists (p : string) : Proc bool :=
  fun w => (w, Returned (path_exists os p (fs w))).

(** [os.makedirs(p)]. *)
Definition os_makedirs (p : string) : Proc unit :=
  fun w =>
    match makedirs os p (fs w) with
    | Some fs' => (mkWorld fs' (loggers w), Returned tt)
    | None => (w, Raised OSError)
    end.

(** The name under which the registry keeps a logger: the root logger for no
    name, the empty name and the name of the root. *)
Definition logger_key (name : option string) : string :=
  match name with
  | None => "root"
  | Some s => if String.eqb s "" then "root" else s
  end.

(** A logger nobody has touched: the root logger warns, any other has no
    level of its own; neither has handlers. *)
Definition fresh_logger (key : string) : Logger :=
  if String.eqb key "root" then mkLogger WARNING [] else mkLogger NOTSET [].

(** The logger the registry holds, or would create, under [key]. *)
Definition logger_at (key : string) (reg : gmap string Logger) : Logger :=
  match reg !! key with
  | Some lg => lg
  | None => fresh_logger key
  end.

(** [logging.getLogger(name)]: the logger of that name, created and
    registered on first use.  The result is the reference to it, its key. *)
Definition getLogger (name : option string) : Proc string :=
  fun w =>
    let key := logger_key name in
    (mkWorld (fs w) (<[key := logger_at key (loggers w)]> (loggers w)),
     Returned key).

(** [logger.setLevel(lv)]. *)
Definition setLevel (key : string) (lv : Level) : Proc unit :=
  fun w =>
    let lg := logger_at key (loggers w) in
    (mkWorld (fs w) (<[key := mkLogger lv (handlers lg)]> (loggers w)),
     Returned tt).

(** [logger.addHandler(h)] for a handler object that has just been created:
    it is not among the logger's handlers, so it is appended. *)
Definition addHandler (key : string) (h : Handler) : Proc unit :=
  fun w =>
    let lg := logger_at key (loggers w) in
    (mkWorld (fs w) (<[key := mkLogger (level lg) (handlers lg ++ [h])]> (loggers w)),
     Returned tt).

(** [logging.FileHandler(filename, mode)]: the file is opened at once. *)
Definition new_FileHandler (filename mode : string) : Proc Handler :=
  fun w =>
    match open_file os filename mode (fs w) with
    | Some fs' => (mkWorld fs' (loggers w), Returned (FileHandler filename mode None))
    | None => (w, Raised OSError)
    end.

(** Subscript of a dictionary. *)
Definition getitem {K : Type} `{Countable K} {V : Type} (d : gmap K V) (k : K) : Proc V :=
  fun w =>
    match d !! k with
    | Some v => (w, Returned v)
    | None => (w, Raised KeyError)
    end.

Definition level_dict : gmap Z Level :=
  list_to_map [(0%Z, DEBUG); (1%Z, INFO); (2%Z, WARNING)].

Definition log_format : string :=
  "[%(asctime)s][%(filename)s][line:%(lineno)d][%(levelname)s] %(message)s".

(** [get_logger(filename, verbosity, name)]. *)
Definition get_logger (filename : string) (verbosity : Z) (name : option string)
  : Proc string :=
  let* found := os_path_exists "./logs/" in
  let* _ := (if negb found then os_makedirs "./logs/" else p_ret tt) in
  let formatter := log_format in
  let* logger := getLogger name in
  let* lv := getitem level_dict verbosity in
  let* _ := setLevel logger lv in
  let* fh := new_FileHandler filename "a+" in
  let fh := setFormatter formatter fh in
  let* _ := addHandler logger fh in
  let sh := setFormatter formatter (StreamHandler None) in
  let* _ := addHandler logger sh in
  p_ret logger.

(** The file system after the first statement of [get_logger], if it does not
    raise: untouched when "./logs/" exists, else with the directory made. *)
Definition logs_dir_step (f : FS) : option FS :=
  if path_exists os "./logs/" f then Some f else makedirs os "./logs/" f.

End WithOS.

(** The two handlers a call attaches. *)
Definition file_handler (filename : string) : Handler :=
  FileHandler filename "a+" (Some log_format).

Definition stream_handler : Handler := StreamHandler (Some log_format).

(** The level a verbosity stands for. *)
Definition level_of (verbosity : Z) : Level :=
  if (verbosity =? 0)%Z then DEBUG
  else if (verbosity =? 1)%Z then INFO
  else WARNING.

(** A world without files and without loggers. *)
Definition empty_world : World (list string) := mkWorld [] ∅.

End Logging.

(** ** Multi-indices and row-major storage *)

Section Indexing.

Lemma length_indices (sz : list nat) : length (indices sz) = numel_of sz.
Proof.
  induction sz as [|s sz IH]; simpl; [reflexivity|].
  generalize 0%nat at 1. induction s as [|s IHs]; intros b; simpl; [reflexivity|].
  rewrite List.length_app, List.length_map, IH, IHs. reflexivity.
Qed.

Lemma flat_index_lt (sz idx : list nat) :
  in_bounds sz idx -> (flat_index sz idx < numel_of sz)%nat.
Proof.
  revert idx; induction sz as [|s sz IH]; intros [|i idx]; simpl; try tauto; try lia.
  intros [Hi Hb]. specialize (IH idx Hb). nia.
Qed.

Lemma nth_concat_uniform {A : Type} (n : nat) (d : A) (ls : list (list A)) :
  Forall (fun l => length l = n) ls ->
  forall i j, (j < n)%nat ->
  nth (i * n + j) (concat ls) d = nth j (nth i ls []) d.
Proof.
  induction 1 as [|l ls Hl _ IH]; intros i j Hj.
  - simpl. destruct (i * n + j)%nat, i, j; reflexivity.
  - destruct i as [|i]; simpl.
    + apply List.app_nth1. lia.
    + rewrite List.app_nth2 by lia.
      replace (n + i * n + j - length l)%nat with (i * n + j)%nat by lia.
      apply IH, Hj.
Qed.

Lemma indices_chunks (s : nat) (sz : list nat) :
  Forall (fun l => length l = numel_of sz)
         (map (fun i => map (cons i) (indices sz)) (seq 0 s)).
Proof.
  apply List.Forall_forall. intros l Hl.
  apply List.in_map_iff in Hl as (i & <- & _).
  rewrite List.length_map. apply length_indices.
Qed.

Lemma nth_indices_cons (s : nat) (sz : list nat) (i j : nat) :
  (i < s)%nat -> (j < numel_of sz)%nat ->
  nth (i * numel_of sz + j) (indices (s :: sz)) [] = i :: nth j (indices sz) [].
Proof.
  intros Hi Hj. simpl. rewrite List.flat_map_concat_map.
  rewrite (nth_concat_uniform (numel_of sz)) by (apply indices_chunks || exact Hj).
  rewrite (List.nth_indep _ [] (map (cons 0%nat) (indices sz)))
    by (rewrite List.length_map, List.length_seq; exact Hi).
  rewrite (List.map_nth (fun i => map (cons i) (indices sz))), List.seq_nth by exact Hi.
  simpl. rewrite (List.nth_indep _ [] (i :: []))
    by (rewrite List.length_map, length_indices; exact Hj).
  apply (List.map_nth (cons i)).
Qed.

Lemma nth_indices (sz idx : list nat) :
  in_bounds sz idx -> nth (flat_index sz idx) (indices sz) [] = idx.
Proof.
  revert idx; induction sz as [|s sz IH]; intros [|i idx]; try (simpl; tauto).
  intros [Hi Hb]. change (flat_index (s :: sz) (i :: idx))
    with (i * numel_of sz + flat_index sz idx)%nat.
  rewrite nth_indices_cons by (exact Hi || apply flat_index_lt, Hb).
  rewrite IH by exact Hb. reflexivity.
Qed.

Lemma in_indices_bounds (sz idx : list nat) :
  In idx (indices sz) -> in_bounds sz idx.
Proof.
  revert idx; induction sz as [|s sz IH]; intros idx; simpl.
  - intros [<-|[]]. exact I.
  - rewrite List.in_flat_map. intros (i & Hi & Hin).
    apply List.in_map_iff in Hin as (idx' & <- & Hin).
    apply List.in_seq in Hi. split; [lia | apply IH, Hin].
Qed.

Lemma flat_index_nth (sz : list nat) (k : nat) :
  (k < numel_of sz)%nat -> flat_index sz (nth k (indices sz) []) = k.
Proof.
  revert k; induction sz as [|s sz IH]; intros k Hk.
  - simpl in Hk. destruct k; [reflexivity | lia].
  - change (numel_of (s :: sz)) with (s * numel_of sz)%nat in Hk.
    assert (Hn : numel_of sz <> 0%nat) by (intros E; rewrite E in Hk; lia).
    pose proof (Nat.div_mod_eq k (numel_of sz)) as Hdm.
    pose proof (Nat.mod_upper_bound k (numel_of sz) Hn) as Hm.
    assert (Hd : (k / numel_of sz < s)%nat)
      by (apply Nat.Div0.div_lt_upper_bound; lia).
    replace k with (k / numel_of sz * numel_of sz + k mod numel_of sz)%nat at 1 by lia.
    rewrite nth_indices_cons by assumption.
    change (flat_index (s :: sz) (?i :: ?r)) with (i * numel_of sz + flat_index sz r)%nat.
    rewrite IH by exact Hm. lia.
Qed.

Lemma gather_all (sz : list nat) (l : list R) :
  length l = numel_of sz ->
  map (fun idx => nth (flat_index sz idx) l 0%R) (indices sz) = l.
Proof.
  intros Hl. apply (List.nth_ext _ _ 0%R 0%R).
  - rewrite List.length_map, length_indices. symmetry; exact Hl.
  - intros k Hk. rewrite List.length_map, length_indices in Hk.
    rewrite (List.nth_indep _ 0%R ((fun idx => nth (flat_index sz idx) l 0%R) []))
      by (rewrite List.length_map, length_indices; exact Hk).
    rewrite (List.map_nth (fun idx => nth (flat_index sz idx) l 0%R)).
    rewrite flat_index_nth by exact Hk. reflexivity.
Qed.

End Indexing.

(** ** Elementwise and broadcasting operations *)

Section TensorLemmas.

Lemma tabulate_wf (sz : list nat) (f : list nat -> R) : tensor_wf (tabulate sz f).
Proof. unfold tensor_wf; simpl. rewrite List.length_map. apply length_indices. Qed.

Lemma tget_tabulate (sz : list nat) (f : list nat -> R) (idx : list nat) :
  in_bounds sz idx -> tget (tabulate sz f) idx = f idx.
Proof.
  intros Hb. unfold tget, tabulate; simpl.
  rewrite (List.nth_indep _ 0%R (f []))
    by (rewrite List.length_map, length_indices; apply flat_index_lt, Hb).
  rewrite List.map_nth, nth_indices by exact Hb. reflexivity.
Qed.

Lemma tabulate_ext (sz : list nat) (f g : list nat -> R) :
  (forall idx, in_bounds sz idx -> f idx = g idx) -> tabulate sz f = tabulate sz g.
Proof.
  intros H. unfold tabulate. f_equal. apply List.map_ext_in.
  intros idx Hin. apply H, in_indices_bounds, Hin.
Qed.

Lemma tmap_wf (f : R -> R) (t : Tensor) : tensor_wf t -> tensor_wf (tmap f t).
Proof. unfold tensor_wf; simpl. rewrite List.length_map. trivial. Qed.

Lemma tget_tmap (f : R -> R) (t : Tensor) (idx : list nat) :
  tensor_wf t -> in_bounds (sizes t) idx -> tget (tmap f t) idx = f (tget t idx).
Proof.
  intros Hwf Hb. unfold tget; simpl.
  rewrite (List.nth_indep _ 0%R (f 0%R))
    by (rewrite List.length_map, Hwf; apply flat_index_lt, Hb).
  apply List.map_nth.
Qed.

Lemma tmap_tmap (f g : R -> R) (t : Tensor) :
  tmap f (tmap g t) = tmap (fun v => f (g v)) t.
Proof. unfold tmap; simpl. rewrite List.map_map. reflexivity. Qed.

Lemma tmap_ext (f g : R -> R) (t : Tensor) :
  (forall v, f v = g v) -> tmap f t = tmap g t.
Proof. intros H. unfold tmap. f_equal. apply List.map_ext, H. Qed.

Lemma tmap_id (t : Tensor) : tmap (fun v => v) t = t.
Proof. destruct t as [sz l]. unfold tmap; simpl. rewrite List.map_id. reflexivity. Qed.

Lemma in_bounds_length (sz idx : list nat) :
  in_bounds sz idx -> length idx = length sz.
Proof.
  revert idx; induction sz as [|s sz IH]; intros [|i idx]; simpl; try tauto.
  intros [_ Hb]. f_equal. apply IH, Hb.
Qed.

Lemma bcast_index_same (sz idx : list nat) :
  in_bounds sz idx -> bcast_index sz idx = idx.
Proof.
  intros Hb. unfold bcast_index.
  rewrite (in_bounds_length _ _ Hb), Nat.sub_diag.
  change (skipn 0 idx) with idx.
  revert idx Hb; induction sz as [|s sz IH]; intros [|i idx]; simpl; try tauto.
  intros [Hi Hb]. rewrite IH by exact Hb.
  destruct (Nat.eqb_spec s 1); [f_equal; lia | reflexivity].
Qed.

Lemma broadcast_rev_same (l : list nat) : broadcast_rev l l = Some l.
Proof.
  induction l as [|x l IH]; simpl; [reflexivity|].
  rewrite Nat.eqb_refl, IH. reflexivity.
Qed.

Lemma broadcast_shapes_same (sz : list nat) : broadcast_shapes sz sz = Some sz.
Proof.
  unfold broadcast_shapes. rewrite broadcast_rev_same. simpl.
  rewrite List.rev_involutive. reflexivity.
Qed.

(** On two elementwise images of one tensor a binary operator is the
    elementwise image of the combined function: no broadcasting happens. *)
Lemma binop_tmap (f : R -> R -> R) (g1 g2 : R -> R) (t : Tensor) :
  tensor_wf t ->
  binop f (tmap g1 t) (tmap g2 t) = Ok (tmap (fun v => f (g1 v) (g2 v)) t).
Proof.
  intros Hwf. unfold binop. simpl sizes. rewrite broadcast_shapes_same.
  f_equal. unfold tabulate. unfold tmap at 3. f_equal.
  rewrite <- (gather_all (sizes t) (data t) Hwf) at 1.
  rewrite List.map_map. apply List.map_ext_in. intros idx Hin.
  apply in_indices_bounds in Hin.
  rewrite bcast_index_same by exact Hin.
  rewrite !tget_tmap by assumption. reflexivity.
Qed.

Lemma binop_tmap_l (f : R -> R -> R) (g : R -> R) (t : Tensor) :
  tensor_wf t -> binop f t (tmap g t) = Ok (tmap (fun v => f v (g v)) t).
Proof.
  intros Hwf. rewrite <- (tmap_id t) at 1. apply (binop_tmap f (fun v => v) g t Hwf).
Qed.

Lemma binop_tmap_r (f : R -> R -> R) (g : R -> R) (t : Tensor) :
  tensor_wf t -> binop f (tmap g t) t = Ok (tmap (fun v => f (g v) v) t).
Proof.
  intros Hwf. rewrite <- (tmap_id t) at 2. apply (binop_tmap f g (fun v => v) t Hwf).
Qed.

Lemma full_wf (sz : list nat) (v : R) : tensor_wf (full sz v).
Proof. unfold tensor_wf, full; simpl. apply List.repeat_length. Qed.

Lemma tmap_full (f : R -> R) (sz : list nat) (v : R) :
  tmap f (full sz v) = full sz (f v).
Proof.
  unfold tmap, full; simpl. f_equal.
  induction (numel_of sz) as [|n IH]; simpl; [reflexivity | f_equal; exact IH].
Qed.

End TensorLemmas.

(** ** The basis functions are elementwise *)

Section BasisLemmas.

Local Open Scope R_scope.

(** Unfolds a basis function into elementwise maps of its argument and
    leaves the comparison of the two scalar functions. *)
Ltac elementwise_steps :=
  unfold add, sub, mul, div, ones_like, pow, pow_half, smul, sdiv, neg,
         t_exp, t_log;
  repeat first
    [ rewrite tmap_tmap
    | rewrite binop_tmap by assumption
    | rewrite binop_tmap_l by assumption
    | rewrite binop_tmap_r by assumption
    | progress (cbn [rbind]) ];
  try (f_equal; apply tmap_ext; intros v; cbv beta); try reflexivity.

Lemma gaussian_elementwise :
  elementwise gaussian (fun a => exp (-1 * a ^ 2)).
Proof. intros t Hwf. unfold gaussian. elementwise_steps. Qed.

Lemma linear_elementwise : elementwise linear (fun a => a).
Proof. intros t Hwf. unfold linear. rewrite tmap_id. reflexivity. Qed.

Lemma quadratic_elementwise : elementwise quadratic (fun a => a ^ 2).
Proof. intros t Hwf. reflexivity. Qed.

Lemma inverse_quadratic_elementwise :
  elementwise inverse_quadratic (fun a => 1 / (1 + a ^ 2)).
Proof. intros t Hwf. unfold inverse_quadratic. elementwise_steps. Qed.

Lemma multiquadric_elementwise :
  elementwise multiquadric (fun a => sqrt (1 + a ^ 2)).
Proof. intros t Hwf. unfold multiquadric. elementwise_steps. Qed.

Lemma inverse_multiquadric_elementwise :
  elementwise inverse_multiquadric (fun a => 1 / sqrt (1 + a ^ 2)).
Proof. intros t Hwf. unfold inverse_multiquadric. elementwise_steps. Qed.

Lemma spline_elementwise :
  elementwise spline (fun a => a ^ 2 * ln (a + 1)).
Proof. intros t Hwf. unfold spline. elementwise_steps. Qed.

Lemma poisson_one_elementwise :
  elementwise poisson_one (fun a => (a - 1) * exp (- a)).
Proof. intros t Hwf. unfold poisson_one. elementwise_steps. Qed.

Lemma poisson_two_elementwise :
  elementwise poisson_two (fun a => (a - 2 * 1) / 2 * 1 * a * exp (- a)).
Proof. intros t Hwf. unfold poisson_two. elementwise_steps. Qed.

Lemma matern32_elementwise :
  elementwise matern32 (fun a => (1 + sqrt 3 * a) * exp (- sqrt 3 * a)).
Proof. intros t Hwf. unfold matern32. elementwise_steps. Qed.

Lemma matern52_elementwise :
  elementwise matern52
    (fun a => (1 + sqrt 5 * a + 5 / 3 * a ^ 2) * exp (- sqrt 5 * a)).
Proof. intros t Hwf. unfold matern52. elementwise_steps. Qed.

End BasisLemmas.

(** ** The catalog *)

Section Catalog.

Local Open Scope R_scope.

Lemma get_missing (name : string) :
  ~ In name catalog_names -> get name = Err UnknownBasisFunction.
Proof.
  intros Hn. unfold get, getitem, basis_func_dict.
  rewrite (not_elem_of_list_to_map_1 (M := gmap string)); [reflexivity|].
  intros Hin. apply Hn. apply list_elem_of_In. exact Hin.
Qed.

Lemma get_present :
  get "gaussian" = Ok gaussian /\
  get "linear" = Ok linear /\
  get "quadratic" = Ok quadratic /\
  get "inverse quadratic" = Ok inverse_quadratic /\
  get "multiquadric" = Ok multiquadric /\
  get "inverse multiquadric" = Ok inverse_multiquadric /\
  get "spline" = Ok spline /\
  get "poisson one" = Ok poisson_one /\
  get "poisson two" = Ok poisson_two /\
  get "matern32" = Ok matern32 /\
  get "matern52" = Ok matern52.
Proof. repeat split; reflexivity. Qed.

End Catalog.

(** ** The views and the distance matrix computed by [forward] *)

Section ForwardLemmas.

Local Open Scope R_scope.

Lemma bcast_dim (n i : nat) : (i < n)%nat -> (if (n =? 1)%nat then 0%nat else i) = i.
Proof. intros H. destruct (Nat.eqb_spec n 1); lia. Qed.

Lemma in_bounds_2 (n m : nat) (idx : list nat) :
  in_bounds [n; m] idx -> exists i j, idx = [i; j] /\ (i < n)%nat /\ (j < m)%nat.
Proof.
  destruct idx as [|i [|j [|? ?]]]; simpl; try tauto.
  intros (Hi & Hj & _). exists i, j. auto.
Qed.

(** Two well-formed tensors of the same sizes with the same elements are
    equal. *)
Lemma tensor_ext (a b : Tensor) :
  tensor_wf a -> tensor_wf b -> sizes a = sizes b ->
  (forall idx, in_bounds (sizes a) idx -> tget a idx = tget b idx) ->
  a = b.
Proof.
  destruct a as [sa da], b as [sb db]. unfold tensor_wf, tget; simpl.
  intros Ha Hb <- H. f_equal.
  rewrite <- (gather_all sa da Ha), <- (gather_all sa db Hb).
  apply List.map_ext_in. intros idx Hin. apply H, in_indices_bounds, Hin.
Qed.

(** [input.unsqueeze(1).expand(n, m, d)] on a batch of [n] rows of length
    [len]: defined when [len] is [d] or 1. *)
Lemma expand_input (t : Tensor) (n len m d : nat) :
  sizes t = [n; len] -> dim_expands len d = true ->
  (let? u := unsqueeze t 1 in expand u [n; m; d]) =
  Ok (tabulate [n; m; d]
        (fun idx => tget (mkTensor [n; 1%nat; len] (data t))
                         (bcast_index [n; 1%nat; len] idx))).
Proof.
  intros Hsz Hd. unfold unsqueeze. rewrite Hsz. cbn [length Nat.leb rbind].
  change (firstn 1 [n; len] ++ 1%nat :: skipn 1 [n; len]) with [n; 1%nat; len].
  unfold expand, expandable. cbn [sizes length Nat.leb Nat.sub].
  change (skipn 0 [n; m; d]) with [n; m; d].
  cbn [combine forallb fst snd andb]. unfold dim_expands at 1 2.
  rewrite Nat.eqb_refl, Hd. cbn [orb andb].
  rewrite Bool.orb_true_r. reflexivity.
Qed.

(** [centers.unsqueeze(0).expand(n, m, d)]. *)
Lemma expand_centers (c : Tensor) (n m d : nat) :
  sizes c = [m; d] ->
  (let? u := unsqueeze c 0 in expand u [n; m; d]) =
  Ok (tabulate [n; m; d]
        (fun idx => tget (mkTensor [1%nat; m; d] (data c))
                         (bcast_index [1%nat; m; d] idx))).
Proof.
  intros Hsz. unfold unsqueeze. rewrite Hsz. cbn [length Nat.leb rbind].
  change (firstn 0 [m; d] ++ 1%nat :: skipn 0 [m; d]) with [1%nat; m; d].
  unfold expand, expandable. cbn [sizes length Nat.leb Nat.sub].
  change (skipn 0 [n; m; d]) with [n; m; d].
  cbn [combine forallb fst snd andb]. unfold dim_expands.
  rewrite !Nat.eqb_refl. cbn [orb andb].
  rewrite Bool.orb_true_r. reflexivity.
Qed.

Lemma tget_expanded_input (t : Tensor) (n len i j k : nat) :
  sizes t = [n; len] -> (i < n)%nat ->
  tget (mkTensor [n; 1%nat; len] (data t)) (bcast_index [n; 1%nat; len] [i; j; k]) =
  tget t [i; if (len =? 1)%nat then 0%nat else k].
Proof.
  intros Hsz Hi. unfold tget, bcast_index. rewrite Hsz.
  cbn [sizes length Nat.sub]. change (skipn 0 [i; j; k]) with [i; j; k].
  cbn [combine map fst snd]. rewrite (bcast_dim n i Hi), Nat.eqb_refl.
  cbn [flat_index numel_of fold_right]. f_equal; lia.
Qed.

Lemma tget_expanded_centers (c : Tensor) (m d i j k : nat) :
  sizes c = [m; d] -> (j < m)%nat -> (k < d)%nat ->
  tget (mkTensor [1%nat; m; d] (data c)) (bcast_index [1%nat; m; d] [i; j; k]) =
  tget c [j; k].
Proof.
  intros Hsz Hj Hk. unfold tget, bcast_index. rewrite Hsz.
  cbn [sizes length Nat.sub]. change (skipn 0 [i; j; k]) with [i; j; k].
  cbn [combine map fst snd]. rewrite (bcast_dim m j Hj), (bcast_dim d k Hk), Nat.eqb_refl.
  cbn [flat_index numel_of fold_right]. f_equal; lia.
Qed.

Lemma broadcast_shapes_row (n m : nat) :
  broadcast_shapes [n; m] [1%nat; m] = Some [n; m].
Proof.
  unfold broadcast_shapes. cbn [rev app broadcast_rev].
  rewrite Nat.eqb_refl. destruct (n =? 1)%nat eqn:E; reflexivity.
Qed.


Lemma binop_same_sizes (f : R -> R -> R) (a b : Tensor) :
  sizes a = sizes b ->
  binop f a b =
  Ok (tabulate (sizes a) (fun idx => f (tget a (bcast_index (sizes a) idx))
                                       (tget b (bcast_index (sizes a) idx)))).
Proof.
  intros E. unfold binop. rewrite <- E, broadcast_shapes_same. reflexivity.
Qed.

Lemma binop_row (f : R -> R -> R) (a b : Tensor) (n m : nat) :
  sizes a = [n; m] -> sizes b = [1%nat; m] ->
  binop f a b =
  Ok (tabulate [n; m] (fun idx => f (tget a (bcast_index [n; m] idx))
                                    (tget b (bcast_index [1%nat; m] idx)))).
Proof.
  intros Ea Eb. unfold binop. rewrite Ea, Eb, broadcast_shapes_row. reflexivity.
Qed.

Lemma sum_last_3 (t : Tensor) (n m d : nat) :
  sizes t = [n; m; d] ->
  sum_last t =
  tabulate [n; m] (fun idx => Rsum (map (fun k => tget t (idx ++ [k])) (seq 0 d))).
Proof. intros E. unfold sum_last. rewrite E. reflexivity. Qed.

Lemma unsqueeze_vector (t : Tensor) (m : nat) :
  sizes t = [m] -> unsqueeze t 0 = Ok (mkTensor [1%nat; m] (data t)).
Proof. intros E. unfold unsqueeze. rewrite E. reflexivity. Qed.

Lemma tget_row_vector (f : R -> R) (t : Tensor) (m i j : nat) :
  tensor_wf t -> sizes t = [m] -> (j < m)%nat ->
  tget (mkTensor [1%nat; m] (data (tmap f t))) (bcast_index [1%nat; m] [i; j]) =
  f (tget t [j]).
Proof.
  intros Hwf Hsz Hj. unfold tget, bcast_index. rewrite Hsz.
  cbn [sizes data tmap length Nat.sub]. change (skipn 0 [i; j]) with [i; j].
  cbn [combine map fst snd]. rewrite (bcast_dim m j Hj), Nat.eqb_refl.
  cbn [flat_index numel_of fold_right].
  unfold tensor_wf in Hwf. rewrite Hsz in Hwf. cbn [numel_of fold_right] in Hwf.
  rewrite (List.nth_indep _ 0 (f 0)) by (rewrite List.length_map; lia).
  rewrite List.map_nth. f_equal; f_equal; lia.
Qed.

Lemma forward_distances (l : RBF) (input : Tensor) (n len : nat) :
  layer_wf l -> sizes input = [n; len] ->
  dim_expands len (in_features l) = true ->
  exists dist,
    forward input l = (l, basis_func l dist) /\
    tensor_wf dist /\ sizes dist = [n; out_features l] /\
    forall i j, (i < n)%nat -> (j < out_features l)%nat ->
      tget dist [i; j] =
      sqrt (Rsum (map (fun k => (tget input [i; if (len =? 1)%nat then 0%nat else k]
                                 - tget (centers l) [j; k]) ^ 2)
                      (seq 0 (in_features l))))
      / exp (tget (log_sigmas l) [j]).
Proof.
  intros (Hcw & Hcs & Hlw & Hls) Hsz Hd.
  unfold forward, m_bind, read, lift.
  unfold size; rewrite Hsz; cbn [nth_error].
  rewrite (expand_input _ _ _ _ _ Hsz Hd), (expand_centers _ _ _ _ Hcs).
  unfold sub. rewrite binop_same_sizes by reflexivity. cbn [rbind].
  rewrite (unsqueeze_vector (t_exp (log_sigmas l)) (out_features l)) by exact Hls.
  cbn [rbind]. unfold div.
  rewrite (binop_row _ _ _ n (out_features l))
    by (reflexivity || (unfold pow_half; cbn [sizes tmap];
                        erewrite sum_last_3 by reflexivity; reflexivity)).
  eexists. split; [reflexivity|]. split; [apply tabulate_wf|].
  split; [reflexivity|]. intros i j Hi Hj.
  assert (Hb : in_bounds [n; out_features l] [i; j]) by (simpl; auto).
  rewrite tget_tabulate by exact Hb.
  rewrite (bcast_index_same _ _ Hb).
  unfold t_exp. rewrite (tget_row_vector exp) by assumption. f_equal.
  unfold pow_half, pow.
  erewrite sum_last_3 by reflexivity.
  rewrite tget_tmap by (apply tabulate_wf || exact Hb).
  rewrite tget_tabulate by exact Hb. f_equal. f_equal.
  apply List.map_ext_in. intros k Hk. apply List.in_seq in Hk.
  assert (Hb3 : in_bounds [n; out_features l; in_features l] [i; j; k])
    by (simpl; repeat split; lia).
  cbn [app]. rewrite tget_tmap by (apply tabulate_wf || exact Hb3).
  rewrite tget_tabulate by exact Hb3. cbn [sizes tabulate].
  rewrite (bcast_index_same _ _ Hb3), !tget_tabulate by exact Hb3.
  rewrite (tget_expanded_input _ _ _ _ _ _ Hsz Hi).
  rewrite (tget_expanded_centers _ _ _ _ _ _ Hcs) by lia.
  reflexivity.
Qed.

End ForwardLemmas.

(** ** Properties of [forward] *)

Section ForwardProperties.

Local Open Scope R_scope.

Lemma scenario_layer_wf (bf : basis_fn) : layer_wf (scenario_layer bf).
Proof. repeat split. Qed.

(** C1. On a layer with [in_features = D > 0] and [out_features = M > 0], for
    a batch of [N >= 1] vectors of length [D], [forward] returns an N x M
    matrix, and its entry (i, j) is the basis function applied to the
    Euclidean distance of input row i to center j divided by
    [exp(log_sigmas[j])]. *)
Theorem forward_spec (l : RBF) (input : Tensor) (n : nat) (f : R -> R) :
  layer_wf l ->
  (0 < in_features l)%nat -> (0 < out_features l)%nat ->
  sizes input = [n; in_features l] -> (1 <= n)%nat ->
  elementwise (basis_func l) f ->
  exists out,
    forward input l = (l, Ok out) /\
    tensor_wf out /\ sizes out = [n; out_features l] /\
    forall i j, (i < n)%nat -> (j < out_features l)%nat ->
      tget out [i; j] =
      f (sqrt (sqdist (in_features l) input (centers l) i j)
         / exp (tget (log_sigmas l) [j])).
Proof.
  intros Hwf _ _ Hsz _ Hf.
  destruct (forward_distances l input n (in_features l) Hwf Hsz)
    as (dist & Hrun & Hdw & Hds & Hent).
  { unfold dim_expands. rewrite Nat.eqb_refl. reflexivity. }
  exists (tmap f dist). rewrite Hrun, (Hf dist Hdw).
  split; [reflexivity|]. split; [apply tmap_wf, Hdw|]. split; [exact Hds|].
  intros i j Hi Hj.
  rewrite tget_tmap by (exact Hdw || (rewrite Hds; simpl; auto)).
  rewrite (Hent i j Hi Hj). unfold sqdist. do 4 f_equal.
  apply List.map_ext_in. intros k Hk. apply List.in_seq in Hk.
  rewrite bcast_dim by lia. reflexivity.
Qed.

Lemma forward_spec_witness :
  exists out,
    forward batch_34 (scenario_layer linear) = (scenario_layer linear, Ok out) /\
    tensor_wf out /\ sizes out = [1%nat; 1%nat] /\
    forall i j, (i < 1)%nat -> (j < 1)%nat ->
      tget out [i; j] =
      sqrt (sqdist 2 batch_34 (centers (scenario_layer linear)) i j)
      / exp (tget (log_sigmas (scenario_layer linear)) [j]).
Proof.
  apply (forward_spec (scenario_layer linear) batch_34 1 (fun a => a)).
  - apply scenario_layer_wf.
  - simpl; lia.
  - simpl; lia.
  - reflexivity.
  - lia.
  - exact linear_elementwise.
Defined.

(** C2, as stated, fails: a batch of vectors of length 1 is accepted by a
    layer with [in_features = 2]. *)
Lemma forward_mismatch_accepted :
  ~ (forall (l : RBF) (input : Tensor) (n len : nat),
       layer_wf l -> tensor_wf input -> sizes input = [n; len] ->
       len <> in_features l ->
       snd (forward input l) = Err ShapeMismatch).
Proof.
  intros H.
  specialize (H (scenario_layer linear) batch_narrow 1%nat 1%nat
                (scenario_layer_wf linear) eq_refl eq_refl).
  destruct (forward_distances (scenario_layer linear) batch_narrow 1 1
              (scenario_layer_wf linear) eq_refl eq_refl) as (dist & Hrun & _).
  rewrite Hrun in H. simpl in H. unfold linear in H.
  assert (Hne : (1 <> 2)%nat) by lia. specialize (H Hne). discriminate H.
Qed.

(** C2, amended. A batch whose vector length is neither [in_features] nor 1
    is refused: [forward] raises the shape error, returns nothing and leaves
    the layer as it was. *)
Theorem forward_shape_mismatch (l : RBF) (input : Tensor) (n len : nat) :
  sizes input = [n; len] ->
  len <> in_features l -> len <> 1%nat ->
  forward input l = (l, Err ShapeMismatch).
Proof.
  intros Hsz Hne H1. unfold forward, m_bind, read, lift.
  unfold size; rewrite Hsz; cbn [nth_error].
  unfold unsqueeze. rewrite Hsz. cbn [length Nat.leb rbind].
  change (firstn 1 [n; len] ++ 1%nat :: skipn 1 [n; len]) with [n; 1%nat; len].
  unfold expand, expandable. cbn [sizes length Nat.leb Nat.sub].
  change (skipn 0 [n; out_features l; in_features l])
    with [n; out_features l; in_features l].
  cbn [combine forallb fst snd andb]. unfold dim_expands.
  apply Nat.eqb_neq in Hne, H1. rewrite Hne, H1.
  cbn [orb andb]. rewrite !Bool.andb_false_r. reflexivity.
Qed.

Lemma forward_shape_mismatch_witness :
  forward batch_wide (scenario_layer linear)
  = (scenario_layer linear, Err ShapeMismatch).
Proof.
  apply (forward_shape_mismatch (scenario_layer linear) batch_wide 1 3).
  - reflexivity.
  - simpl; lia.
  - lia.
Defined.

(** [forward] never writes to the layer, whether it returns or raises. *)
Lemma forward_reads_only (input : Tensor) (l : RBF) : fst (forward input l) = l.
Proof.
  unfold forward, m_bind, read, lift.
  repeat match goal with
         | |- context [match ?r with Ok _ => _ | Err _ => _ end] => destruct r
         end; reflexivity.
Qed.

(** C9. A successful call of [forward] leaves the layer unchanged: the
    dimensions, the centers, the log-bandwidths and the basis function after
    the call are those before it; the output is the only effect. *)
Theorem forward_frame (input : Tensor) (l l' : RBF) (out : Tensor) :
  forward input l = (l', Ok out) ->
  l' = l /\
  in_features l' = in_features l /\ out_features l' = out_features l /\
  centers l' = centers l /\ log_sigmas l' = log_sigmas l /\
  basis_func l' = basis_func l.
Proof.
  intros H. pose proof (forward_reads_only input l) as E.
  rewrite H in E. simpl in E. subst l'. repeat split.
Qed.

Lemma forward_frame_witness :
  forward batch_34 (scenario_layer linear)
  = (scenario_layer linear,
     Ok (mkTensor [1%nat; 1%nat]
           [sqrt ((3 - 0) ^ 2 + ((4 - 0) ^ 2 + 0)) / exp 0])) /\
  scenario_layer linear = scenario_layer linear.
Proof.
  assert (H : forward batch_34 (scenario_layer linear)
              = (scenario_layer linear,
                 Ok (mkTensor [1%nat; 1%nat]
                       [sqrt ((3 - 0) ^ 2 + ((4 - 0) ^ 2 + 0)) / exp 0])))
    by reflexivity.
  split; [exact H | exact (proj1 (forward_frame _ _ _ _ H))].
Defined.


(** C10. On a layer with [in_features > 1], a batch of N vectors of length 1
    is accepted: [expand] broadcasts the dimension of size one, and the
    output is the N x out_features matrix that [forward] returns for the
    batch in which every vector is its single entry repeated [in_features]
    times. *)
Theorem forward_broadcasts_length_one (l : RBF) (input : Tensor) (n : nat)
    (f : R -> R) :
  layer_wf l -> (1 < in_features l)%nat ->
  sizes input = [n; 1%nat] ->
  elementwise (basis_func l) f ->
  exists out,
    forward input l = (l, Ok out) /\
    tensor_wf out /\ sizes out = [n; out_features l] /\
    forward (repeat_cols (in_features l) input) l = (l, Ok out) /\
    forall i j, (i < n)%nat -> (j < out_features l)%nat ->
      tget out [i; j] =
      f (sqrt (Rsum (map (fun k => (tget input [i; 0%nat] - tget (centers l) [j; k]) ^ 2)
                         (seq 0 (in_features l))))
         / exp (tget (log_sigmas l) [j])).
Proof.
  intros Hwf _ Hsz Hf.
  destruct (forward_distances l input n 1 Hwf Hsz)
    as (d1 & Hrun1 & Hw1 & Hs1 & Hent1).
  { unfold dim_expands. rewrite Nat.eqb_refl. apply Bool.orb_true_r. }
  assert (Hsz2 : sizes (repeat_cols (in_features l) input) = [n; in_features l])
    by (unfold repeat_cols; rewrite Hsz; reflexivity).
  destruct (forward_distances l _ n (in_features l) Hwf Hsz2)
    as (d2 & Hrun2 & Hw2 & Hs2 & Hent2).
  { unfold dim_expands. rewrite Nat.eqb_refl. reflexivity. }
  assert (E : d2 = d1).
  { apply tensor_ext; try assumption; [congruence|].
    intros idx Hb. rewrite Hs2 in Hb.
    apply in_bounds_2 in Hb as (i & j & -> & Hi & Hj).
    rewrite (Hent1 i j Hi Hj), (Hent2 i j Hi Hj). do 3 f_equal.
    apply List.map_ext_in. intros k Hk. apply List.in_seq in Hk.
    rewrite bcast_dim by lia. do 2 f_equal.
    unfold repeat_cols. rewrite Hsz. cbn [nth].
    rewrite tget_tabulate by (simpl; repeat split; lia). reflexivity. }
  subst d2. exists (tmap f d1).
  rewrite Hrun1, Hrun2, (Hf d1 Hw1).
  split; [reflexivity|]. split; [apply tmap_wf, Hw1|]. split; [exact Hs1|].
  split; [reflexivity|]. intros i j Hi Hj.
  rewrite tget_tmap by (exact Hw1 || (rewrite Hs1; simpl; auto)).
  rewrite (Hent1 i j Hi Hj). reflexivity.
Qed.

Lemma forward_broadcasts_length_one_witness :
  exists out,
    forward batch_narrow (scenario_layer linear) = (scenario_layer linear, Ok out) /\
    tensor_wf out /\ sizes out = [1%nat; 1%nat] /\
    forward (repeat_cols 2 batch_narrow) (scenario_layer linear)
    = (scenario_layer linear, Ok out) /\
    forall i j, (i < 1)%nat -> (j < 1)%nat ->
      tget out [i; j] =
      sqrt (Rsum (map (fun k => (tget batch_narrow [i; 0%nat]
                                 - tget (centers (scenario_layer linear)) [j; k]) ^ 2)
                      (seq 0 2)))
      / exp (tget (log_sigmas (scenario_layer linear)) [j]).
Proof.
  apply (forward_broadcasts_length_one (scenario_layer linear) batch_narrow 1
           (fun a => a)).
  - apply scenario_layer_wf.
  - simpl; lia.
  - reflexivity.
  - exact linear_elementwise.
Defined.

End ForwardProperties.

(** ** Properties of the constructor *)

Section Construction.

Local Open Scope R_scope.

Lemma nth_map_const {A : Type} (c : R) (l : list A) (k : nat) :
  nth k (map (fun _ => c) l) c = c.
Proof. revert k; induction l as [|a l IH]; intros [|k]; simpl; auto. Qed.

Lemma RBF_init_ok (env : Env) (i o : Z) (bf : basis_fn) :
  (0 <= i)%Z -> (0 <= o)%Z ->
  RBF_init env i o bf =
  Ok (mkRBF (Z.to_nat i) (Z.to_nat o)
        (normal_ (randn env)
           (mkTensor [Z.to_nat o; Z.to_nat i]
              (map (garbage env) (seq 0 (numel_of [Z.to_nat o; Z.to_nat i])))) 0 1)
        (constant_
           (mkTensor [Z.to_nat o]
              (map (garbage env) (seq 0 (numel_of [Z.to_nat o])))) 0)
        bf).
Proof.
  intros Hi Ho. unfold RBF_init, Tensor_new. cbn [forallb].
  apply Z.leb_le in Hi, Ho. rewrite Hi, Ho. reflexivity.
Qed.

Lemma RBF_init_negative (env : Env) (i o : Z) (bf : basis_fn) :
  (i < 0 \/ o < 0)%Z -> RBF_init env i o bf = Err InvalidArgument.
Proof.
  intros H. unfold RBF_init, Tensor_new. cbn [forallb].
  destruct (Z.leb_spec 0 o) as [Ho|Ho]; [|reflexivity].
  destruct (Z.leb_spec 0 i) as [Hi|Hi]; [lia | reflexivity].
Qed.

(** C5, as stated, fails: a dimension equal to 0 is accepted. *)
Lemma RBF_init_zero_accepted :
  ~ (forall (env : Env) (i o : Z) (bf : basis_fn),
       (i <= 0 \/ o <= 0)%Z -> RBF_init env i o bf = Err InvalidArgument).
Proof.
  intros H. specialize (H quiet_env 0%Z 1%Z linear).
  rewrite RBF_init_ok in H by lia.
  assert (Hz : (0 <= 0 \/ 1 <= 0)%Z) by lia.
  specialize (H Hz). discriminate H.
Qed.

(** C5, amended. For dimensions that are 64-bit integers, the constructor
    raises the invalid-argument error exactly when one of the two dimensions
    is negative; a dimension equal to 0 is not refused.  (The errors of the
    allocation of very large tensors are no part of this statement.) *)
Theorem RBF_init_errors (env : Env) (i o : Z) (bf : basis_fn) :
  (- 2 ^ 63 <= i < 2 ^ 63)%Z -> (- 2 ^ 63 <= o < 2 ^ 63)%Z ->
  (RBF_init env i o bf = Err InvalidArgument <-> (i < 0 \/ o < 0)%Z).
Proof.
  intros _ _.
  destruct (Z_lt_le_dec i 0) as [Hi|Hi].
  { rewrite RBF_init_negative by lia. split; intros; [lia | reflexivity]. }
  destruct (Z_lt_le_dec o 0) as [Ho|Ho].
  { rewrite RBF_init_negative by lia. split; intros; [lia | reflexivity]. }
  rewrite RBF_init_ok by assumption. split; intros H; [discriminate H | lia].
Qed.

Lemma RBF_init_errors_witness :
  RBF_init quiet_env (-1) 1 linear = Err InvalidArgument <-> (-1 < 0 \/ 1 < 0)%Z.
Proof. apply (RBF_init_errors quiet_env (-1) 1 linear); lia. Defined.

(** C6. For positive dimensions the constructor returns a layer whose
    centers have shape out_features x in_features and whose log-bandwidths
    are a vector of length out_features with every entry 0, so that every
    bandwidth [exp(log_sigmas[j])] is 1. *)
Theorem RBF_init_shapes (env : Env) (i o : Z) (bf : basis_fn) :
  (0 < i)%Z -> (0 < o)%Z ->
  exists l,
    RBF_init env i o bf = Ok l /\
    in_features l = Z.to_nat i /\ out_features l = Z.to_nat o /\
    tensor_wf (centers l) /\ sizes (centers l) = [Z.to_nat o; Z.to_nat i] /\
    tensor_wf (log_sigmas l) /\ sizes (log_sigmas l) = [Z.to_nat o] /\
    data (log_sigmas l) = repeat 0 (Z.to_nat o) /\
    (forall j, (j < Z.to_nat o)%nat ->
       tget (log_sigmas l) [j] = 0 /\ exp (tget (log_sigmas l) [j]) = 1) /\
    basis_func l = bf.
Proof.
  intros Hi Ho. eexists. rewrite RBF_init_ok by lia.
  split; [reflexivity|]. cbn [in_features out_features centers log_sigmas basis_func].
  assert (Hz : forall n, map (fun _ : R => 0) (map (garbage env) (seq 0 (n * 1))) = repeat 0 n).
  { intros n. rewrite List.map_map, Nat.mul_1_r. generalize 0%nat.
    induction n as [|n IH]; intros b; simpl; [reflexivity | f_equal; apply IH]. }
  repeat split.
  - unfold tensor_wf, normal_; cbn [sizes data].
    rewrite !List.length_map, !List.length_seq. reflexivity.
  - unfold tensor_wf, constant_, tmap; cbn [sizes data].
    rewrite !List.length_map, !List.length_seq. reflexivity.
  - unfold constant_, tmap; cbn [sizes data numel_of fold_right]. apply Hz.
  - unfold tget, constant_, tmap; cbn [sizes data]. apply nth_map_const.
  - unfold tget, constant_, tmap; cbn [sizes data]. rewrite nth_map_const. apply exp_0.
Qed.

Lemma RBF_init_shapes_witness :
  exists l,
    RBF_init quiet_env 2 1 linear = Ok l /\
    in_features l = 2%nat /\ out_features l = 1%nat /\
    tensor_wf (centers l) /\ sizes (centers l) = [1%nat; 2%nat] /\
    tensor_wf (log_sigmas l) /\ sizes (log_sigmas l) = [1%nat] /\
    data (log_sigmas l) = [0] /\
    (forall j, (j < 1)%nat ->
       tget (log_sigmas l) [j] = 0 /\ exp (tget (log_sigmas l) [j]) = 1) /\
    basis_func l = linear.
Proof.
  apply (RBF_init_shapes quiet_env 2 1 linear); lia.
Defined.

End Construction.

(** ** Properties of the basis functions *)

Section BasisProperties.

Local Open Scope R_scope.

(** C3. On scaled distances [alpha >= 0], [poisson_two] as the code writes
    it, [(alpha - 2*1)/2*1 * alpha * exp(-alpha)], returns the value of the
    specification's closed form [((alpha - 2) / 2) * alpha * exp(-alpha)],
    at every element of its argument. *)
Theorem poisson_two_closed_form (alpha : Tensor) :
  tensor_wf alpha -> Forall (fun a => 0 <= a) (data alpha) ->
  poisson_two alpha = Ok (tmap poisson_two_spec alpha).
Proof.
  intros Hwf _. rewrite (poisson_two_elementwise alpha Hwf).
  f_equal. apply tmap_ext. intros a. unfold poisson_two_spec. field.
Qed.

Lemma poisson_two_closed_form_witness :
  poisson_two (scalar_tensor 3) = Ok (scalar_tensor (poisson_two_spec 3)).
Proof.
  apply (poisson_two_closed_form (scalar_tensor 3)).
  - reflexivity.
  - repeat constructor. lra.
Defined.

(** C4. The catalog lookup returns, for each of the eleven names spelled
    with literal spaces, the basis function of that name, which is usable
    (it is defined on every tensor, elementwise); for every other name it
    raises the unknown-basis-function error. *)
Theorem catalog_lookup :
  (get "gaussian" = Ok gaussian /\
   get "linear" = Ok linear /\
   get "quadratic" = Ok quadratic /\
   get "inverse quadratic" = Ok inverse_quadratic /\
   get "multiquadric" = Ok multiquadric /\
   get "inverse multiquadric" = Ok inverse_multiquadric /\
   get "spline" = Ok spline /\
   get "poisson one" = Ok poisson_one /\
   get "poisson two" = Ok poisson_two /\
   get "matern32" = Ok matern32 /\
   get "matern52" = Ok matern52) /\
  (forall name, In name catalog_names ->
     exists bf f, get name = Ok bf /\ elementwise bf f) /\
  (forall name, ~ In name catalog_names ->
     get name = Err UnknownBasisFunction).
Proof.
  split; [exact get_present|]. split; [|exact get_missing].
  intros name Hin. simpl in Hin.
  repeat (destruct Hin as [<-|Hin];
          [eexists; eexists; split; [reflexivity|];
           eauto using gaussian_elementwise, linear_elementwise,
             quadratic_elementwise, inverse_quadratic_elementwise,
             multiquadric_elementwise, inverse_multiquadric_elementwise,
             spline_elementwise, poisson_one_elementwise,
             poisson_two_elementwise, matern32_elementwise,
             matern52_elementwise|]).
  destruct Hin.
Qed.

(** C7. At scaled distance 0 (a tensor of any shape filled with 0, the
    scalar included) the basis functions return exactly: gaussian 1,
    linear 0, quadratic 0, inverse quadratic 1, multiquadric 1, inverse
    multiquadric 1, spline 0, matern32 1, matern52 1. *)
Theorem basis_at_zero (sz : list nat) :
  gaussian (full sz 0) = Ok (full sz 1) /\
  linear (full sz 0) = Ok (full sz 0) /\
  quadratic (full sz 0) = Ok (full sz 0) /\
  inverse_quadratic (full sz 0) = Ok (full sz 1) /\
  multiquadric (full sz 0) = Ok (full sz 1) /\
  inverse_multiquadric (full sz 0) = Ok (full sz 1) /\
  spline (full sz 0) = Ok (full sz 0) /\
  matern32 (full sz 0) = Ok (full sz 1) /\
  matern52 (full sz 0) = Ok (full sz 1).
Proof.
  pose proof (full_wf sz 0) as Hwf.
  assert (E0 : forall x, x = 0 -> exp x = 1) by (intros x ->; apply exp_0).
  assert (S1 : sqrt (1 + 0 ^ 2) = 1)
    by (replace (1 + 0 ^ 2) with 1 by ring; apply sqrt_1).
  repeat match goal with |- _ /\ _ => split end.
  - rewrite (gaussian_elementwise _ Hwf), tmap_full. do 2 f_equal. apply E0. ring.
  - rewrite (linear_elementwise _ Hwf), tmap_full. reflexivity.
  - rewrite (quadratic_elementwise _ Hwf), tmap_full. do 2 f_equal. ring.
  - rewrite (inverse_quadratic_elementwise _ Hwf), tmap_full. do 2 f_equal. field.
  - rewrite (multiquadric_elementwise _ Hwf), tmap_full. do 2 f_equal. exact S1.
  - rewrite (inverse_multiquadric_elementwise _ Hwf), tmap_full. do 2 f_equal.
    rewrite S1. field.
  - rewrite (spline_elementwise _ Hwf), tmap_full. do 2 f_equal. ring.
  - rewrite (matern32_elementwise _ Hwf), tmap_full. do 2 f_equal.
    rewrite (E0 (- sqrt 3 * 0)) by ring. ring.
  - rewrite (matern52_elementwise _ Hwf), tmap_full. do 2 f_equal.
    rewrite (E0 (- sqrt 5 * 0)) by ring. ring.
Qed.

(** C8, as stated, fails in the arithmetic of the program: on float64
    tensors [quadratic] overflows to infinity at 2^600 and at 2^601, two
    scaled distances that it does not tell apart. *)
Lemma quadratic_not_strict :
  ~ (forall a b : PrimFloat.float,
       PrimFloat.leb Float64.zero a = true -> PrimFloat.ltb a b = true ->
       PrimFloat.ltb (Float64.quadratic a) (Float64.quadratic b) = true).
Proof.
  intros H.
  specialize (H Float64.two_600 Float64.two_601 eq_refl eq_refl).
  discriminate H.
Qed.

(** The plateau behind it: both squares are infinity. *)
Example quadratic_overflows :
  Float64.quadratic Float64.two_600 = PrimFloat.infinity /\
  Float64.quadratic Float64.two_601 = PrimFloat.infinity /\
  PrimFloat.ltb Float64.two_600 Float64.two_601 = true.
Proof. repeat split. Qed.

(** C8, amended. On scaled distances [0 <= a < b]: gaussian does not
    increase, linear is strictly increasing and quadratic does not
    decrease. *)
Theorem basis_monotone_weak (a b : R) :
  0 <= a -> a < b ->
  (exists va vb, gaussian (scalar_tensor a) = Ok (scalar_tensor va) /\
                 gaussian (scalar_tensor b) = Ok (scalar_tensor vb) /\ vb <= va) /\
  (exists va vb, linear (scalar_tensor a) = Ok (scalar_tensor va) /\
                 linear (scalar_tensor b) = Ok (scalar_tensor vb) /\ va < vb) /\
  (exists va vb, quadratic (scalar_tensor a) = Ok (scalar_tensor va) /\
                 quadratic (scalar_tensor b) = Ok (scalar_tensor vb) /\ va <= vb).
Proof.
  intros Ha Hab. repeat match goal with |- _ /\ _ => split end.
  - exists (exp (-1 * a ^ 2)), (exp (-1 * b ^ 2)).
    split; [reflexivity|]. split; [reflexivity|].
    left. apply exp_increasing. nra.
  - exists a, b. split; [reflexivity|]. split; [reflexivity|]. exact Hab.
  - exists (a ^ 2), (b ^ 2). split; [reflexivity|]. split; [reflexivity|]. nra.
Qed.

Lemma basis_monotone_weak_witness :
  (exists va vb, gaussian (scalar_tensor 1) = Ok (scalar_tensor va) /\
                 gaussian (scalar_tensor 2) = Ok (scalar_tensor vb) /\ vb <= va) /\
  (exists va vb, linear (scalar_tensor 1) = Ok (scalar_tensor va) /\
                 linear (scalar_tensor 2) = Ok (scalar_tensor vb) /\ va < vb) /\
  (exists va vb, quadratic (scalar_tensor 1) = Ok (scalar_tensor va) /\
                 quadratic (scalar_tensor 2) = Ok (scalar_tensor vb) /\ va <= vb).
Proof. apply (basis_monotone_weak 1 2); lra. Defined.

End BasisProperties.

(** ** The scenarios of the specification *)

Section Scenarios.

Local Open Scope R_scope.

Lemma distance_34 : sqrt ((3 - 0) ^ 2 + ((4 - 0) ^ 2 + 0)) / exp 0 = 5.
Proof.
  rewrite exp_0. replace ((3 - 0) ^ 2 + ((4 - 0) ^ 2 + 0)) with (5 * 5) by ring.
  rewrite sqrt_square by lra. field.
Qed.

Lemma distance_00 : sqrt ((0 - 0) ^ 2 + ((0 - 0) ^ 2 + 0)) / exp 0 = 0.
Proof.
  rewrite exp_0. replace ((0 - 0) ^ 2 + ((0 - 0) ^ 2 + 0)) with 0 by ring.
  rewrite sqrt_0. field.
Qed.

(** in_features = 2, out_features = 1, center (0, 0), log-bandwidth 0,
    gaussian, input [(3, 4)]: the output is [exp(-25)]. *)
Example scenario_gaussian :
  forward batch_34 (scenario_layer gaussian)
  = (scenario_layer gaussian, Ok (mkTensor [1%nat; 1%nat] [exp (-25)])).
Proof.
  transitivity
    (scenario_layer gaussian,
     Ok (mkTensor [1%nat; 1%nat]
           [exp (-1 * (sqrt ((3 - 0) ^ 2 + ((4 - 0) ^ 2 + 0)) / exp 0) ^ 2)]));
    [reflexivity|].
  rewrite distance_34. replace (-1 * 5 ^ 2) with (-25) by ring. reflexivity.
Qed.

(** The same layer with the linear basis, input [(0, 0), (3, 4)]: the
    outputs are 0 and 5. *)
Example scenario_linear :
  forward batch_00_34 (scenario_layer linear)
  = (scenario_layer linear, Ok (mkTensor [2%nat; 1%nat] [0; 5])).
Proof.
  transitivity
    (scenario_layer linear,
     Ok (mkTensor [2%nat; 1%nat]
           [sqrt ((0 - 0) ^ 2 + ((0 - 0) ^ 2 + 0)) / exp 0;
            sqrt ((3 - 0) ^ 2 + ((4 - 0) ^ 2 + 0)) / exp 0]));
    [reflexivity|].
  rewrite distance_34, distance_00. reflexivity.
Qed.

(** A vector of length 1 given to the layer of two inputs is read as (3, 3). *)
Example scenario_narrow :
  forward batch_narrow (scenario_layer linear)
  = (scenario_layer linear,
     Ok (mkTensor [1%nat; 1%nat]
           [sqrt ((3 - 0) ^ 2 + ((3 - 0) ^ 2 + 0)) / exp 0])).
Proof. reflexivity. Qed.

(** Keys are matched as spelled: an underscore is not a space. *)
Example lookup_underscore :
  get "inverse_quadratic" = Err UnknownBasisFunction /\
  get "nonexistent" = Err UnknownBasisFunction.
Proof. split; reflexivity. Qed.

(** A layer without inputs is constructed; a negative dimension is refused. *)
Example construct_zero :
  exists l, RBF_init quiet_env 0 1 linear = Ok l /\
            sizes (centers l) = [1%nat; 0%nat] /\ data (centers l) = [].
Proof. eexists. split; [reflexivity|]. split; reflexivity. Qed.

Example construct_negative :
  RBF_init quiet_env (-1) 1 linear = Err InvalidArgument.
Proof. reflexivity. Qed.

End Scenarios.

(** ** Further properties of [forward] *)

Section ForwardMore.

Local Open Scope R_scope.

Lemma dim_expands_refl (d : nat) : dim_expands d d = true.
Proof. unfold dim_expands. rewrite Nat.eqb_refl. reflexivity. Qed.

(** The elements of a well-formed tensor of two dimensions are its entries. *)
Lemma Forall_entries (P : R -> Prop) (t : Tensor) (n m : nat) :
  tensor_wf t -> sizes t = [n; m] ->
  (forall i j, (i < n)%nat -> (j < m)%nat -> P (tget t [i; j])) ->
  Forall P (data t).
Proof.
  intros Hwf Hsz H. rewrite <- (gather_all (sizes t) (data t) Hwf).
  apply List.Forall_forall. intros v Hv.
  apply List.in_map_iff in Hv as (idx & <- & Hin).
  apply in_indices_bounds in Hin. rewrite Hsz in Hin.
  apply in_bounds_2 in Hin as (i & j & -> & Hi & Hj).
  exact (H i j Hi Hj).
Qed.

(** The distance matrix of an N x in_features batch, in the form the
    statements below use. *)
Lemma forward_alpha (l : RBF) (input : Tensor) (n : nat) :
  layer_wf l -> sizes input = [n; in_features l] ->
  exists alpha,
    forward input l = (l, basis_func l alpha) /\
    tensor_wf alpha /\ sizes alpha = [n; out_features l] /\
    forall i j, (i < n)%nat -> (j < out_features l)%nat ->
      tget alpha [i; j] =
      distance (in_features l) input (centers l) i j / exp (tget (log_sigmas l) [j]).
Proof.
  intros Hwf Hsz.
  destruct (forward_distances l input n (in_features l) Hwf Hsz (dim_expands_refl _))
    as (dist & Hrun & Hdw & Hds & Hent).
  exists dist. repeat match goal with |- _ /\ _ => split end; try assumption.
  intros i j Hi Hj. rewrite (Hent i j Hi Hj). unfold distance, sqdist. do 3 f_equal.
  apply List.map_ext_in. intros k Hk. apply List.in_seq in Hk.
  rewrite bcast_dim by lia. reflexivity.
Qed.

(** X1. An empty batch, or a layer without centers, is not refused: [forward]
    returns the empty tensor of sizes N x out_features. *)
Theorem forward_empty (l : RBF) (input : Tensor) (n : nat) (f : R -> R) :
  layer_wf l -> sizes input = [n; in_features l] ->
  elementwise (basis_func l) f ->
  n = 0%nat \/ out_features l = 0%nat ->
  exists out,
    forward input l = (l, Ok out) /\
    sizes out = [n; out_features l] /\ data out = [].
Proof.
  intros Hwf Hsz Hf Hz.
  destruct (forward_alpha l input n Hwf Hsz) as (alpha & Hrun & Hw & Hs & _).
  exists (tmap f alpha). rewrite Hrun, (Hf alpha Hw).
  split; [reflexivity|]. split; [exact Hs|].
  apply List.length_zero_iff_nil. cbn [data tmap]. rewrite List.length_map, Hw, Hs.
  cbn [numel_of fold_right]. destruct Hz as [-> | ->]; lia.
Qed.

Lemma forward_empty_witness :
  exists out,
    forward batch_empty (scenario_layer gaussian) = (scenario_layer gaussian, Ok out) /\
    sizes out = [0%nat; 1%nat] /\ data out = [].
Proof.
  apply (forward_empty (scenario_layer gaussian) batch_empty 0 (fun a => exp (-1 * a ^ 2))).
  - apply scenario_layer_wf.
  - reflexivity.
  - exact gaussian_elementwise.
  - left; reflexivity.
Defined.

(** X2. The input has to be a batch: a tensor without dimensions makes
    [forward] raise the index error of [size(0)]; a tensor with three or more
    dimensions, and a vector whose length is neither 1 nor out_features, the
    shape error of [expand]; the layer is left as it was. *)
Theorem forward_bad_rank (l : RBF) (input : Tensor) :
  (sizes input = [] -> forward input l = (l, Err IndexError)) /\
  ((3 <= length (sizes input))%nat -> forward input l = (l, Err ShapeMismatch)) /\
  (forall n, sizes input = [n] -> n <> out_features l -> n <> 1%nat ->
     forward input l = (l, Err ShapeMismatch)).
Proof.
  split; [|split]; [intros H | intros H | intros n H Hm H1];
    unfold forward, m_bind, read, lift, size.
  3: { rewrite H. cbn [nth_error]. unfold unsqueeze. rewrite H.
       cbn [length Nat.leb rbind].
       change (firstn 1 [n] ++ 1%nat :: skipn 1 [n]) with [n; 1%nat].
       unfold expand, expandable. cbn [sizes length Nat.leb Nat.sub].
       change (skipn 1 [n; out_features l; in_features l])
         with [out_features l; in_features l].
       cbn [combine forallb fst snd andb]. unfold dim_expands at 1.
       apply Nat.eqb_neq in Hm, H1. rewrite Hm, H1. reflexivity. }
  - rewrite H. reflexivity.
  - destruct (sizes input) as [|a [|b [|c rest]]] eqn:E; simpl in H; try lia.
    cbn [nth_error]. unfold unsqueeze. rewrite E. cbn [length Nat.leb rbind].
    change (firstn 1 (a :: b :: c :: rest) ++ 1%nat :: skipn 1 (a :: b :: c :: rest))
      with (a :: 1%nat :: b :: c :: rest).
    unfold expand, expandable. cbn [sizes length Nat.leb andb]. reflexivity.
Qed.

(** X3. Whatever the basis function, the tensor [forward] hands to it holds
    scaled distances: it is a well-formed N x out_features tensor without a
    negative element. *)
Theorem forward_alpha_nonneg (l : RBF) (input : Tensor) (n : nat) :
  layer_wf l -> sizes input = [n; in_features l] ->
  exists alpha,
    forward input l = (l, basis_func l alpha) /\
    tensor_wf alpha /\ sizes alpha = [n; out_features l] /\
    Forall (fun a => 0 <= a) (data alpha).
Proof.
  intros Hwf Hsz.
  destruct (forward_alpha l input n Hwf Hsz) as (alpha & Hrun & Hw & Hs & Hent).
  exists alpha. repeat match goal with |- _ /\ _ => split end; try assumption.
  apply (Forall_entries _ alpha n (out_features l) Hw Hs).
  intros i j Hi Hj. rewrite (Hent i j Hi Hj). unfold distance.
  apply Rmult_le_pos; [apply sqrt_pos | left; apply Rinv_0_lt_compat, exp_pos].
Qed.

Lemma forward_alpha_nonneg_witness :
  exists alpha,
    forward batch_34 (scenario_layer poisson_two)
    = (scenario_layer poisson_two, poisson_two alpha) /\
    tensor_wf alpha /\ sizes alpha = [1%nat; 1%nat] /\
    Forall (fun a => 0 <= a) (data alpha).
Proof.
  apply (forward_alpha_nonneg (scenario_layer poisson_two) batch_34 1).
  - apply scenario_layer_wf.
  - reflexivity.
Defined.


(** X5. The rows of a batch do not interact: two batches that hold the same
    vector, at whatever positions, get the same output row for it. *)
Theorem forward_rows_independent (l : RBF) (a b : Tensor) (na nb : nat)
    (f : R -> R) (i i' : nat) :
  layer_wf l ->
  sizes a = [na; in_features l] -> sizes b = [nb; in_features l] ->
  elementwise (basis_func l) f ->
  (i < na)%nat -> (i' < nb)%nat ->
  (forall k, (k < in_features l)%nat -> tget a [i; k] = tget b [i'; k]) ->
  exists oa ob,
    forward a l = (l, Ok oa) /\ forward b l = (l, Ok ob) /\
    forall j, (j < out_features l)%nat -> tget oa [i; j] = tget ob [i'; j].
Proof.
  intros Hwf Ha Hb Hf Hi Hi' Heq.
  destruct (forward_alpha l a na Hwf Ha) as (ta & Hra & Hwa & Hsa & Hea).
  destruct (forward_alpha l b nb Hwf Hb) as (tb & Hrb & Hwb & Hsb & Heb).
  exists (tmap f ta), (tmap f tb).
  rewrite Hra, Hrb, (Hf ta Hwa), (Hf tb Hwb).
  split; [reflexivity|]. split; [reflexivity|]. intros j Hj.
  rewrite !tget_tmap
    by (assumption || (rewrite Hsa; simpl; auto) || (rewrite Hsb; simpl; auto)).
  rewrite (Hea i j Hi Hj), (Heb i' j Hi' Hj). unfold distance, sqdist. do 4 f_equal.
  apply List.map_ext_in. intros k Hk. apply List.in_seq in Hk.
  rewrite (Heq k) by lia. reflexivity.
Qed.

Lemma forward_rows_independent_witness :
  exists oa ob,
    forward batch_34 (scenario_layer linear) = (scenario_layer linear, Ok oa) /\
    forward batch_00_34 (scenario_layer linear) = (scenario_layer linear, Ok ob) /\
    forall j, (j < 1)%nat -> tget oa [0%nat; j] = tget ob [1%nat; j].
Proof.
  apply (forward_rows_independent (scenario_layer linear) batch_34 batch_00_34
           1 2 (fun a => a) 0 1).
  - apply scenario_layer_wf.
  - reflexivity.
  - reflexivity.
  - exact linear_elementwise.
  - lia.
  - lia.
  - intros k Hk. simpl in Hk. destruct k as [|[|k]]; [reflexivity | reflexivity | lia].
Defined.

End ForwardMore.

(** ** Further properties of the constructor and of [reset_parameters] *)

Section ConstructionMore.

Local Open Scope R_scope.

Lemma tget_normal_ (r : nat -> R) (t : Tensor) (mean std : R) (m d j k : nat) :
  tensor_wf t -> sizes t = [m; d] -> (j < m)%nat -> (k < d)%nat ->
  tget (normal_ r t mean std) [j; k] = mean + std * r (j * d + k)%nat.
Proof.
  intros Hwf Hsz Hj Hk. unfold tget, normal_. cbn [sizes data]. rewrite Hsz.
  cbn [flat_index numel_of fold_right].
  unfold tensor_wf in Hwf. rewrite Hsz in Hwf. cbn [numel_of fold_right] in Hwf.
  assert (Hlt : (j * (d * 1) + (k * 1 + 0) < length (data t))%nat) by nia.
  rewrite (List.nth_indep _ 0 ((fun k => mean + std * r k) 0%nat))
    by (rewrite List.length_map, List.length_seq; exact Hlt).
  rewrite (List.map_nth (fun k => mean + std * r k)), List.seq_nth by exact Hlt.
  do 3 f_equal. lia.
Qed.

Lemma normal__wf (r : nat -> R) (t : Tensor) (mean std : R) :
  tensor_wf t -> tensor_wf (normal_ r t mean std).
Proof.
  unfold tensor_wf, normal_; cbn [sizes data].
  rewrite List.length_map, List.length_seq. trivial.
Qed.

Lemma tget_constant_ (t : Tensor) (v : R) (m j : nat) :
  tensor_wf t -> sizes t = [m] -> (j < m)%nat -> tget (constant_ t v) [j] = v.
Proof.
  intros Hwf Hsz Hj. unfold constant_.
  rewrite tget_tmap by (exact Hwf || (rewrite Hsz; simpl; auto)). reflexivity.
Qed.

(** X8. [reset_parameters] can be called on any layer, trained or not: it
    does not raise, keeps the dimensions, the basis function and the shapes of
    the parameters, sets every log-bandwidth to 0 and fills the centers, in
    row-major order, with the generator's draws (mean 0, deviation 1). *)
Theorem reset_parameters_spec (env : Env) (l : RBF) :
  layer_wf l ->
  exists l',
    reset_parameters env l = (l', Ok tt) /\
    layer_wf l' /\
    in_features l' = in_features l /\ out_features l' = out_features l /\
    basis_func l' = basis_func l /\
    (forall j, (j < out_features l)%nat -> tget (log_sigmas l') [j] = 0) /\
    (forall j k, (j < out_features l)%nat -> (k < in_features l)%nat ->
       tget (centers l') [j; k] = randn env (j * in_features l + k)%nat).
Proof.
  intros (Hcw & Hcs & Hlw & Hls). eexists. split; [reflexivity|].
  cbn [in_features out_features centers log_sigmas basis_func set_centers set_log_sigmas].
  split; [|repeat match goal with |- _ /\ _ => split end; try reflexivity].
  - unfold layer_wf.
    cbn [in_features out_features centers log_sigmas set_centers set_log_sigmas].
    repeat match goal with |- _ /\ _ => split end; try assumption.
    + apply normal__wf, Hcw.
    + apply tmap_wf, Hlw.
  - intros j Hj. apply (tget_constant_ _ _ (out_features l)); assumption.
  - intros j k Hj Hk.
    rewrite (tget_normal_ _ _ _ _ (out_features l) (in_features l)) by assumption.
    ring.
Qed.

Lemma reset_parameters_spec_witness :
  exists l',
    reset_parameters quiet_env (scenario_layer linear) = (l', Ok tt) /\
    layer_wf l' /\
    in_features l' = 2%nat /\ out_features l' = 1%nat /\
    basis_func l' = linear /\
    (forall j, (j < 1)%nat -> tget (log_sigmas l') [j] = 0) /\
    (forall j k, (j < 1)%nat -> (k < 2)%nat ->
       tget (centers l') [j; k] = randn quiet_env (j * 2 + k)%nat).
Proof.
  apply (reset_parameters_spec quiet_env (scenario_layer linear)).
  apply scenario_layer_wf.
Defined.

(** X9. What the freshly allocated memory holds never reaches the layer: the
    constructor's result is the same for any two memory contents. *)
Theorem RBF_init_ignores_garbage (g1 g2 r : nat -> R) (i o : Z) (bf : basis_fn) :
  RBF_init (mkEnv g1 r) i o bf = RBF_init (mkEnv g2 r) i o bf.
Proof.
  destruct (Z_lt_le_dec i 0) as [Hi|Hi]; [rewrite !RBF_init_negative by lia; reflexivity|].
  destruct (Z_lt_le_dec o 0) as [Ho|Ho]; [rewrite !RBF_init_negative by lia; reflexivity|].
  rewrite !RBF_init_ok by assumption. cbn [garbage randn].
  do 2 f_equal.
  - unfold normal_. cbn [sizes data]. rewrite !List.length_map. reflexivity.
  - unfold constant_, tmap. cbn [sizes data]. rewrite !List.map_map. reflexivity.
Qed.

Lemma RBF_init_wf (env : Env) (i o : Z) (bf : basis_fn) (l : RBF) :
  RBF_init env i o bf = Ok l ->
  (0 <= i)%Z /\ (0 <= o)%Z /\
  layer_wf l /\ in_features l = Z.to_nat i /\ out_features l = Z.to_nat o /\
  basis_func l = bf /\
  (forall j, (j < Z.to_nat o)%nat -> tget (log_sigmas l) [j] = 0) /\
  (forall j k, (j < Z.to_nat o)%nat -> (k < Z.to_nat i)%nat ->
     tget (centers l) [j; k] = randn env (j * Z.to_nat i + k)%nat).
Proof.
  intros H.
  destruct (Z_lt_le_dec i 0) as [Hi|Hi];
    [rewrite RBF_init_negative in H by lia; discriminate|].
  destruct (Z_lt_le_dec o 0) as [Ho|Ho];
    [rewrite RBF_init_negative in H by lia; discriminate|].
  rewrite RBF_init_ok in H by assumption. injection H as <-.
  cbn [in_features out_features centers log_sigmas basis_func].
  assert (W1 : tensor_wf (mkTensor [Z.to_nat o; Z.to_nat i]
            (map (garbage env) (seq 0 (numel_of [Z.to_nat o; Z.to_nat i])))))
    by (unfold tensor_wf; cbn [sizes data]; rewrite List.length_map, List.length_seq; reflexivity).
  assert (W2 : tensor_wf (mkTensor [Z.to_nat o]
            (map (garbage env) (seq 0 (numel_of [Z.to_nat o])))))
    by (unfold tensor_wf; cbn [sizes data]; rewrite List.length_map, List.length_seq; reflexivity).
  split; [exact Hi|]. split; [exact Ho|]. split.
  { unfold layer_wf. cbn [in_features out_features centers log_sigmas].
    repeat match goal with |- _ /\ _ => split end; try reflexivity.
    - apply normal__wf, W1.
    - apply tmap_wf, W2. }
  repeat match goal with |- _ /\ _ => split end; try reflexivity.
  - intros j Hj. apply (tget_constant_ _ _ (Z.to_nat o)); [exact W2 | reflexivity | exact Hj].
  - intros j k Hj Hk.
    rewrite (tget_normal_ _ _ _ _ (Z.to_nat o) (Z.to_nat i)) by (assumption || reflexivity).
    ring.
Qed.

(** X10. A layer that has just been constructed measures plain Euclidean
    distance to the drawn centers: all bandwidths are 1, so the output at
    (r, j) is the basis function at the distance of input row r to the draws
    [randn (j*D)], ..., [randn (j*D + D - 1)]. *)
Theorem init_then_forward (env : Env) (i o : Z) (bf : basis_fn) (f : R -> R)
    (input : Tensor) (n : nat) :
  (0 <= i)%Z -> (0 <= o)%Z ->
  elementwise bf f ->
  sizes input = [n; Z.to_nat i] ->
  exists l out,
    RBF_init env i o bf = Ok l /\
    forward input l = (l, Ok out) /\
    sizes out = [n; Z.to_nat o] /\
    forall r j, (r < n)%nat -> (j < Z.to_nat o)%nat ->
      tget out [r; j] =
      f (sqrt (Rsum (map (fun k => (tget input [r; k]
                                    - randn env (j * Z.to_nat i + k)%nat) ^ 2)
                         (seq 0 (Z.to_nat i))))).
Proof.
  intros Hi Ho Hf Hsz.
  destruct (RBF_init env i o bf) as [l|e] eqn:E;
    [|rewrite RBF_init_ok in E by assumption; discriminate].
  destruct (RBF_init_wf env i o bf l E)
    as (_ & _ & Hwf & Hin & Hout & Hbf & Hls & Hcs).
  rewrite <- Hin in Hsz.
  destruct (forward_alpha l input n Hwf Hsz) as (alpha & Hrun & Hw & Hs & Hent).
  exists l, (tmap f alpha). rewrite Hrun, Hbf, (Hf alpha Hw).
  split; [reflexivity|]. split; [reflexivity|].
  split; [exact (eq_trans Hs (f_equal (fun m => [n; m]) Hout))|].
  intros r j Hr Hj.
  rewrite tget_tmap by (exact Hw || (rewrite Hs, Hout; simpl; auto)).
  rewrite (Hent r j) by (assumption || lia).
  rewrite (Hls j Hj), exp_0, Hin. unfold distance, sqdist.
  f_equal. unfold Rdiv. rewrite Rinv_1, Rmult_1_r. do 2 f_equal.
  apply List.map_ext_in. intros k Hk. apply List.in_seq in Hk.
  rewrite (Hcs j k) by lia. reflexivity.
Qed.

Lemma init_then_forward_witness :
  exists l out,
    RBF_init quiet_env 2 1 linear = Ok l /\
    forward batch_34 l = (l, Ok out) /\
    sizes out = [1%nat; 1%nat] /\
    forall r j, (r < 1)%nat -> (j < 1)%nat ->
      tget out [r; j] =
      sqrt (Rsum (map (fun k => (tget batch_34 [r; k]
                                 - randn quiet_env (j * 2 + k)%nat) ^ 2)
                      (seq 0 2))).
Proof.
  apply (init_then_forward quiet_env 2 1 linear (fun a => a) batch_34 1).
  - lia.
  - lia.
  - exact linear_elementwise.
  - reflexivity.
Defined.

End ConstructionMore.

(** ** Further properties of the basis functions *)

Section BasisMore.

Local Open Scope R_scope.

Lemma exp_le_1 (x : R) : x <= 0 -> exp x <= 1.
Proof.
  intros [H | ->]; [left; rewrite <- exp_0; apply exp_increasing, H | right; apply exp_0].
Qed.

Lemma elementwise_scalar (bf : basis_fn) (f : R -> R) (a : R) :
  elementwise bf f -> bf (scalar_tensor a) = Ok (scalar_tensor (f a)).
Proof. intros H. rewrite (H (scalar_tensor a)); reflexivity. Qed.

Lemma elementwise_returns_all (bf : basis_fn) (f : R -> R) (P Q : R -> Prop)
    (t : Tensor) :
  elementwise bf f -> (forall a, Q a -> P (f a)) ->
  tensor_wf t -> Forall Q (data t) ->
  returns_all P (sizes t) (bf t).
Proof.
  intros Hf HP Hwf HQ. exists (tmap f t). rewrite (Hf t Hwf).
  split; [reflexivity|]. split; [apply tmap_wf, Hwf|]. split; [reflexivity|].
  cbn [data tmap]. apply List.Forall_map.
  apply (List.Forall_impl _ HP HQ).
Qed.

Lemma Forall_any (t : Tensor) : Forall (fun _ : R => True) (data t).
Proof. apply List.Forall_forall. intros; exact I. Qed.

Lemma sqrt_1p_sq (a : R) : 1 <= sqrt (1 + a ^ 2).
Proof.
  rewrite <- sqrt_1 at 1. apply sqrt_le_1; nra.
Qed.

Lemma ln_1p_nonneg (a : R) : 0 <= a -> 0 <= ln (a + 1).
Proof.
  intros [Ha | <-].
  - left. rewrite <- ln_1. apply ln_increasing; lra.
  - right. rewrite Rplus_0_l, ln_1. reflexivity.
Qed.

Lemma inv_1p_range (d : R) : 1 <= d -> 0 <= 1 / d <= 1.
Proof.
  intros H.
  assert (Hi : 0 < / d <= / 1)
    by (split; [apply Rinv_0_lt_compat; lra | apply Rinv_le_contravar; lra]).
  rewrite Rinv_1 in Hi. unfold Rdiv. lra.
Qed.

(** X11. Four kernels are bounded on every tensor, negative elements
    included: gaussian, inverse quadratic and inverse multiquadric never
    return a negative element nor an element above 1, and multiquadric never
    returns an element below 1; none of them raises, and the sizes are
    kept. *)
Theorem basis_bounded (alpha : Tensor) :
  tensor_wf alpha ->
  returns_all (fun v => ~ v < 0 /\ ~ 1 < v) (sizes alpha) (gaussian alpha) /\
  returns_all (fun v => ~ v < 0 /\ ~ 1 < v) (sizes alpha) (inverse_quadratic alpha) /\
  returns_all (fun v => ~ v < 0 /\ ~ 1 < v) (sizes alpha) (inverse_multiquadric alpha) /\
  returns_all (fun v => ~ v < 1) (sizes alpha) (multiquadric alpha).
Proof.
  intros Hwf. pose proof (Forall_any alpha) as HT.
  repeat match goal with |- _ /\ _ => split end.
  - apply (elementwise_returns_all _ _ _ (fun _ => True) _ gaussian_elementwise);
      try assumption.
    intros a _. pose proof (exp_pos (-1 * a ^ 2)).
    assert (exp (-1 * a ^ 2) <= 1) by (apply exp_le_1; nra). lra.
  - apply (elementwise_returns_all _ _ _ (fun _ => True) _ inverse_quadratic_elementwise);
      try assumption.
    intros a _. assert (H : 1 <= 1 + a ^ 2) by nra.
    pose proof (inv_1p_range _ H). lra.
  - apply (elementwise_returns_all _ _ _ (fun _ => True) _ inverse_multiquadric_elementwise);
      try assumption.
    intros a _. pose proof (inv_1p_range _ (sqrt_1p_sq a)). lra.
  - apply (elementwise_returns_all _ _ _ (fun _ => True) _ multiquadric_elementwise);
      try assumption.
    intros a _. pose proof (sqrt_1p_sq a). lra.
Qed.

Lemma basis_bounded_witness :
  returns_all (fun v => ~ v < 0 /\ ~ 1 < v) [] (gaussian (scalar_tensor (-3))) /\
  returns_all (fun v => ~ v < 0 /\ ~ 1 < v) [] (inverse_quadratic (scalar_tensor (-3))) /\
  returns_all (fun v => ~ v < 0 /\ ~ 1 < v) [] (inverse_multiquadric (scalar_tensor (-3))) /\
  returns_all (fun v => ~ v < 1) [] (multiquadric (scalar_tensor (-3))).
Proof. apply (basis_bounded (scalar_tensor (-3))). reflexivity. Defined.

(** X12. On scaled distances, that is on tensors without a negative element,
    linear, quadratic, spline, matern32 and matern52 return tensors of the
    same sizes without a negative element. *)
Theorem basis_nonneg_on_distances (alpha : Tensor) :
  tensor_wf alpha -> Forall (fun a => ~ a < 0) (data alpha) ->
  returns_all (fun v => ~ v < 0) (sizes alpha) (linear alpha) /\
  returns_all (fun v => ~ v < 0) (sizes alpha) (quadratic alpha) /\
  returns_all (fun v => ~ v < 0) (sizes alpha) (spline alpha) /\
  returns_all (fun v => ~ v < 0) (sizes alpha) (matern32 alpha) /\
  returns_all (fun v => ~ v < 0) (sizes alpha) (matern52 alpha).
Proof.
  intros Hwf Hpos.
  assert (H3 : 0 <= sqrt 3) by apply sqrt_pos.
  assert (H5 : 0 <= sqrt 5) by apply sqrt_pos.
  repeat match goal with |- _ /\ _ => split end.
  - apply (elementwise_returns_all _ _ _ (fun a => ~ a < 0) _ linear_elementwise);
      try assumption.
    intros a Ha. exact Ha.
  - apply (elementwise_returns_all _ _ _ (fun a => ~ a < 0) _ quadratic_elementwise);
      try assumption.
    intros a Ha. cbv beta. nra.
  - apply (elementwise_returns_all _ _ _ (fun a => ~ a < 0) _ spline_elementwise);
      try assumption.
    intros a Ha. cbv beta. assert (Ha' : 0 <= a) by lra.
    pose proof (ln_1p_nonneg a Ha'). nra.
  - apply (elementwise_returns_all _ _ _ (fun a => ~ a < 0) _ matern32_elementwise);
      try assumption.
    intros a Ha. cbv beta. pose proof (exp_pos (- sqrt 3 * a)) as He.
    assert (Hs : 0 <= sqrt 3 * a) by (apply Rmult_le_pos; lra).
    assert (0 <= (1 + sqrt 3 * a) * exp (- sqrt 3 * a))
      by (apply Rmult_le_pos; lra).
    lra.
  - apply (elementwise_returns_all _ _ _ (fun a => ~ a < 0) _ matern52_elementwise);
      try assumption.
    intros a Ha. cbv beta. pose proof (exp_pos (- sqrt 5 * a)) as He.
    assert (Hs : 0 <= sqrt 5 * a) by (apply Rmult_le_pos; lra).
    assert (Hq : 0 <= a ^ 2) by nra.
    assert (0 <= (1 + sqrt 5 * a + 5 / 3 * a ^ 2) * exp (- sqrt 5 * a))
      by (apply Rmult_le_pos; lra).
    lra.
Qed.

Lemma basis_nonneg_on_distances_witness :
  returns_all (fun v => ~ v < 0) [] (linear (scalar_tensor 2)) /\
  returns_all (fun v => ~ v < 0) [] (quadratic (scalar_tensor 2)) /\
  returns_all (fun v => ~ v < 0) [] (spline (scalar_tensor 2)) /\
  returns_all (fun v => ~ v < 0) [] (matern32 (scalar_tensor 2)) /\
  returns_all (fun v => ~ v < 0) [] (matern52 (scalar_tensor 2)).
Proof.
  apply (basis_nonneg_on_distances (scalar_tensor 2)).
  - reflexivity.
  - repeat constructor. lra.
Defined.

(** X13. On scaled distances [0 <= a < b], inverse quadratic and inverse
    multiquadric do not increase and multiquadric does not decrease. *)
Theorem basis_monotone_more (a b : R) :
  0 <= a -> a < b ->
  not_rising inverse_quadratic a b /\
  not_rising inverse_multiquadric a b /\
  not_falling multiquadric a b.
Proof.
  intros Ha Hab.
  assert (Hs : sqrt (1 + a ^ 2) < sqrt (1 + b ^ 2)) by (apply sqrt_lt_1; nra).
  pose proof (sqrt_1p_sq a) as Hsa.
  repeat match goal with |- _ /\ _ => split end.
  - eexists; eexists. split; [apply (elementwise_scalar _ _ a inverse_quadratic_elementwise)|].
    split; [apply (elementwise_scalar _ _ b inverse_quadratic_elementwise)|].
    cbv beta. unfold Rdiv. rewrite !Rmult_1_l. left. apply Rinv_lt_contravar; nra.
  - eexists; eexists. split; [apply (elementwise_scalar _ _ a inverse_multiquadric_elementwise)|].
    split; [apply (elementwise_scalar _ _ b inverse_multiquadric_elementwise)|].
    cbv beta. unfold Rdiv. rewrite !Rmult_1_l. left. apply Rinv_lt_contravar; nra.
  - eexists; eexists. split; [apply (elementwise_scalar _ _ a multiquadric_elementwise)|].
    split; [apply (elementwise_scalar _ _ b multiquadric_elementwise)|].
    left. exact Hs.
Qed.

Lemma basis_monotone_more_witness :
  not_rising inverse_quadratic 1 2 /\
  not_rising inverse_multiquadric 1 2 /\
  not_falling multiquadric 1 2.
Proof. apply (basis_monotone_more 1 2); lra. Defined.


Lemma get_elementwise (name : string) (bf : basis_fn) :
  get name = Ok bf -> exists f, elementwise bf f.
Proof.
  intros H.
  destruct (in_dec String.string_dec name catalog_names) as [Hin | Hn];
    [|rewrite (get_missing name Hn) in H; discriminate].
  simpl in Hin.
  repeat (destruct Hin as [<- | Hin];
          [injection H as <-;
           eauto using gaussian_elementwise, linear_elementwise,
             quadratic_elementwise, inverse_quadratic_elementwise,
             multiquadric_elementwise, inverse_multiquadric_elementwise,
             spline_elementwise, poisson_one_elementwise,
             poisson_two_elementwise, matern32_elementwise,
             matern52_elementwise|]).
  destruct Hin.
Qed.

(** X15. Any function the catalog hands out can serve as the basis function
    of a layer: with it, [forward] returns a well-formed N x out_features
    tensor for every N x in_features batch. *)
Theorem catalog_layer_forward (name : string) (l : RBF) (input : Tensor) (n : nat) :
  layer_wf l -> get name = Ok (basis_func l) ->
  sizes input = [n; in_features l] ->
  exists out,
    forward input l = (l, Ok out) /\ tensor_wf out /\ sizes out = [n; out_features l].
Proof.
  intros Hwf Hget Hsz. destruct (get_elementwise _ _ Hget) as (f & Hf).
  destruct (forward_alpha l input n Hwf Hsz) as (alpha & Hrun & Hw & Hs & _).
  exists (tmap f alpha). rewrite Hrun, (Hf alpha Hw).
  split; [reflexivity|]. split; [apply tmap_wf, Hw | exact Hs].
Qed.

Lemma catalog_layer_forward_witness :
  exists out,
    forward batch_34 (scenario_layer matern52) = (scenario_layer matern52, Ok out) /\
    tensor_wf out /\ sizes out = [1%nat; 1%nat].
Proof.
  apply (catalog_layer_forward "matern52" (scenario_layer matern52) batch_34 1).
  - apply scenario_layer_wf.
  - reflexivity.
  - reflexivity.
Defined.

End BasisMore.

(** ** Properties of [get_logger] *)

Section LoggerProperties.

Import Logging.

Context {FS : Type} (os : OS FS).

Lemma logger_at_insert (key : string) (lg : Logger) (reg : gmap string Logger) :
  logger_at key (<[key := lg]> reg) = lg.
Proof. unfold logger_at. rewrite lookup_insert_eq. reflexivity. Qed.

Lemma level_dict_valid (v : Z) :
  (0 <= v <= 2)%Z -> level_dict !! v = Some (level_of v).
Proof.
  intros H. assert (E : v = 0%Z \/ v = 1%Z \/ v = 2%Z) by lia.
  destruct E as [-> | [-> | ->]]; reflexivity.
Qed.

Lemma level_dict_invalid (v : Z) :
  (v < 0 \/ 2 < v)%Z -> level_dict !! v = None.
Proof.
  intros H. unfold level_dict. apply not_elem_of_list_to_map_1. simpl.
  rewrite !elem_of_cons, elem_of_nil. lia.
Qed.

(** The statements of [get_logger] up to the registration of the logger. *)
Lemma get_logger_prefix (filename : string) (v : Z) (name : option string)
    (w : World FS) (fs1 : FS) :
  logs_dir_step os (fs w) = Some fs1 ->
  get_logger os filename v name w =
  (let key := logger_key name in
   let old := logger_at key (loggers w) in
   match level_dict !! v with
   | None => (mkWorld fs1 (<[key := old]> (loggers w)), Raised KeyError)
   | Some lv =>
       match open_file os filename "a+" fs1 with
       | None => (mkWorld fs1 (<[key := mkLogger lv (handlers old)]> (loggers w)),
                  Raised OSError)
       | Some fs2 =>
           (mkWorld fs2
              (<[key := mkLogger lv (handlers old
                                     ++ [file_handler filename; stream_handler])]>
                 (loggers w)),
            Returned key)
       end
   end).
Proof.
  intros Hdir. unfold logs_dir_step in Hdir.
  unfold get_logger, p_bind, os_path_exists, os_makedirs, p_ret, getLogger, getitem,
    setLevel, new_FileHandler, addHandler.
  destruct (path_exists os "./logs/" (fs w)); cbn [negb];
    [injection Hdir as <- | rewrite Hdir]; cbn [fs loggers].
  all: destruct (level_dict !! v) as [lv|]; [|reflexivity].
  all: cbn [fs loggers handlers level].
  all: rewrite ?logger_at_insert, ?insert_insert_eq; cbn [fs loggers handlers level].
  all: destruct (open_file os filename "a+" _) as [fs2|]; [|reflexivity].
  all: cbn [fs loggers handlers level setFormatter].
  all: rewrite ?logger_at_insert, ?insert_insert_eq; cbn [handlers level].
  all: rewrite ?logger_at_insert, ?insert_insert_eq; cbn [handlers level].
  all: rewrite <- List.app_assoc; reflexivity.
Qed.

(** X16. With a verbosity of 0, 1 or 2, and unless the operating system
    refuses to make "./logs/" or to open the file, [get_logger] returns the
    logger of the given name: its level is DEBUG, INFO or WARNING, the two
    new handlers (file, then stream) follow the handlers it had, and no other
    logger is touched.  The file is opened under the name given, in mode
    "a+", and "./logs/" is made only if it does not exist. *)
Theorem get_logger_returns (filename : string) (v : Z) (name : option string)
    (w : World FS) (fs1 fs2 : FS) :
  logs_dir_step os (fs w) = Some fs1 ->
  (0 <= v <= 2)%Z ->
  open_file os filename "a+" fs1 = Some fs2 ->
  get_logger os filename v name w =
  (mkWorld fs2
     (<[logger_key name :=
          mkLogger (level_of v)
                   (handlers (logger_at (logger_key name) (loggers w))
                    ++ [file_handler filename; stream_handler])]> (loggers w)),
   Returned (logger_key name)).
Proof.
  intros Hdir Hv Hopen. rewrite (get_logger_prefix _ _ _ _ _ Hdir). cbv zeta.
  rewrite (level_dict_valid v Hv), Hopen. reflexivity.
Qed.

(** X17. A verbosity other than 0, 1 and 2 makes [get_logger] raise the key
    error, but only after "./logs/" has been made and the logger registered:
    the log file is not opened, and the logger keeps its level and its
    handlers. *)
Theorem get_logger_bad_verbosity (filename : string) (v : Z) (name : option string)
    (w : World FS) (fs1 : FS) :
  logs_dir_step os (fs w) = Some fs1 ->
  (v < 0 \/ 2 < v)%Z ->
  get_logger os filename v name w =
  (mkWorld fs1
     (<[logger_key name := logger_at (logger_key name) (loggers w)]> (loggers w)),
   Raised KeyError).
Proof.
  intros Hdir Hv. rewrite (get_logger_prefix _ _ _ _ _ Hdir). cbv zeta.
  rewrite (level_dict_invalid v Hv). reflexivity.
Qed.

(** X18. When the log file cannot be opened, [get_logger] raises the error
    of the operating system after it has set the level: the logger has the
    new level and no new handler. *)
Theorem get_logger_open_refused (filename : string) (v : Z) (name : option string)
    (w : World FS) (fs1 : FS) :
  logs_dir_step os (fs w) = Some fs1 ->
  (0 <= v <= 2)%Z ->
  open_file os filename "a+" fs1 = None ->
  get_logger os filename v name w =
  (mkWorld fs1
     (<[logger_key name :=
          mkLogger (level_of v)
                   (handlers (logger_at (logger_key name) (loggers w)))]> (loggers w)),
   Raised OSError).
Proof.
  intros Hdir Hv Hopen. rewrite (get_logger_prefix _ _ _ _ _ Hdir). cbv zeta.
  rewrite (level_dict_valid v Hv), Hopen. reflexivity.
Qed.

(** X19. Handlers pile up: a second successful call for the same logger
    attaches a second file handler and a second stream handler after the
    first pair, so the logger ends with four more handlers than it had (and
    the level of the second call). *)
Theorem get_logger_twice (f1 f2 : string) (v1 v2 : Z) (name : option string)
    (w : World FS) (fs1 fs2 fs3 fs4 : FS) :
  logs_dir_step os (fs w) = Some fs1 ->
  open_file os f1 "a+" fs1 = Some fs2 ->
  logs_dir_step os fs2 = Some fs3 ->
  open_file os f2 "a+" fs3 = Some fs4 ->
  (0 <= v1 <= 2)%Z -> (0 <= v2 <= 2)%Z ->
  p_bind (get_logger os f1 v1 name) (fun _ => get_logger os f2 v2 name) w =
  (mkWorld fs4
     (<[logger_key name :=
          mkLogger (level_of v2)
                   (handlers (logger_at (logger_key name) (loggers w))
                    ++ [file_handler f1; stream_handler;
                        file_handler f2; stream_handler])]> (loggers w)),
   Returned (logger_key name)).
Proof.
  intros Hd1 Ho1 Hd2 Ho2 Hv1 Hv2. unfold p_bind.
  rewrite (get_logger_prefix _ _ _ _ _ Hd1). cbv zeta.
  rewrite (level_dict_valid v1 Hv1), Ho1.
  rewrite (get_logger_prefix f2 v2 name _ fs3) by exact Hd2. cbv zeta.
  cbn [fs loggers]. rewrite (level_dict_valid v2 Hv2), Ho2.
  rewrite logger_at_insert, insert_insert_eq. cbn [handlers].
  rewrite <- List.app_assoc. reflexivity.
Qed.

End LoggerProperties.

Section LoggerWitnesses.

Import Logging.

Lemma get_logger_returns_witness :
  get_logger ideal_os "run.log" 1 None empty_world =
  (mkWorld ["run.log"; "./logs/"]%string
     (<["root"%string := mkLogger INFO [file_handler "run.log"; stream_handler]]> ∅),
   Returned "root"%string).
Proof.
  apply (get_logger_returns ideal_os "run.log" 1 None empty_world
           ["./logs/"%string] ["run.log"; "./logs/"]%string).
  - reflexivity.
  - lia.
  - reflexivity.
Defined.

Lemma get_logger_bad_verbosity_witness :
  get_logger ideal_os "run.log" 3 (Some "train"%string) empty_world =
  (mkWorld ["./logs/"%string] (<["train"%string := mkLogger NOTSET []]> ∅),
   Raised KeyError).
Proof.
  apply (get_logger_bad_verbosity ideal_os "run.log" 3 (Some "train"%string)
           empty_world ["./logs/"%string]).
  - reflexivity.
  - lia.
Defined.

Lemma get_logger_open_refused_witness :
  get_logger readonly_os "run.log" 0 (Some "train"%string) empty_world =
  (mkWorld ["./logs/"%string] (<["train"%string := mkLogger DEBUG []]> ∅),
   Raised OSError).
Proof.
  apply (get_logger_open_refused readonly_os "run.log" 0 (Some "train"%string)
           empty_world ["./logs/"%string]).
  - reflexivity.
  - lia.
  - reflexivity.
Defined.

Lemma get_logger_twice_witness :
  p_bind (get_logger ideal_os "a.log" 1 None)
         (fun _ => get_logger ideal_os "b.log" 2 None) empty_world =
  (mkWorld ["b.log"; "a.log"; "./logs/"]%string
     (<["root"%string :=
          mkLogger WARNING [file_handler "a.log"; stream_handler;
                            file_handler "b.log"; stream_handler]]> ∅),
   Returned "root"%string).
Proof.
  apply (get_logger_twice ideal_os "a.log" "b.log" 1 2 None empty_world
           ["./logs/"%string] ["a.log"; "./logs/"]%string
           ["a.log"; "./logs/"]%string ["b.log"; "a.log"; "./logs/"]%string).
  - reflexivity.
  - reflexivity.
  - reflexivity.
  - reflexivity.
  - lia.
  - lia.
Defined.

End LoggerWitnesses.
